(** * Strava -> Google Sheets sync: a shallow embedding of strava_sheets_sync.py

    The development follows the source file top to bottom: the Python
    runtime pieces the script relies on (exceptions, string methods, number
    formatting, [datetime.strptime] / [strftime] / [fromisoformat]), then
    [ensure_strava_token], [fetch_activities], [parse_activity],
    [find_date_row], [normalize_date], [update_sheet] and the sort of [main].

    Modelling conventions.
    - Python [str] is [string] (a sequence of 8-bit characters); Python [int]
      is [Z], or [nat] where the value is a count, a page, a row or a column.
    - Python [float] is modelled by an exact rational [Q]: [/], [//], [%],
      [int()] and [round(_, 2)] are the exact operations that the IEEE
      operations approximate.
    - A dict read with [d[k]] on a key the script always expects is a record
      field; a dict read with [d.get(k)] is an [option] field. The key
      [start_date] of an activity is an [option] field too: it is read with
      [d[k]] as the default of a [.get], so its absence is observable.
    - Exceptions are values of [exn]; a computation that may raise returns
      [res A]. *)

From Stdlib Require Import ZArith QArith Qround String Ascii List Lia Lqa DecimalString.
From Stdlib Require Import Sorting.Sorted Sorting.Permutation.
From stdpp Require Import gmap strings list.
Import ListNotations.

Local Open Scope Z_scope.

(* ===================================================================== *)
(** ** Exceptions and the error monad *)
(* ===================================================================== *)

Inductive exn : Type :=
  | KeyError (key : string)
  | ValueError (msg : string)
  | ZeroDivisionError
  | HTTPError (status : nat).

Inductive res (A : Type) : Type :=
  | Ok (a : A)
  | Raise (e : exn).
Arguments Ok {A} a.
Arguments Raise {A} e.

(** Sequencing: the first exception raised ends the computation. With the
    instances below, [x ← m; k] is stdpp's notation for it. *)
#[export] Instance res_ret : MRet res := fun A a => Ok a.
#[export] Instance res_bind : MBind res := fun A B k m =>
  match m with
  | Ok a => k a
  | Raise e => Raise e
  end.

(** [d[key]] on an optional key. *)
Definition subscript {A : Type} (key : string) (v : option A) : res A :=
  match v with
  | Some a => Ok a
  | None => Raise (KeyError key)
  end.

(* ===================================================================== *)
(** ** Characters and the [str] methods used by the script *)
(* ===================================================================== *)

Definition code (c : ascii) : nat := nat_of_ascii c.

Definition in_range (lo hi c : ascii) : bool :=
  ((code lo <=? code c) && (code c <=? code hi))%nat.

Definition is_digit (c : ascii) : bool := in_range "0" "9" c.

Definition digit_val (c : ascii) : Z := Z.of_nat (code c) - 48.

Definition digit_char (n : Z) : ascii := ascii_of_nat (Z.to_nat (48 + n)).

(** [str.isspace] on the 8-bit range: TAB, LF, VT, FF, CR, FS, GS, RS, US
    and the space. It is also what the regular-expression class [\s]
    matches. *)
Definition is_space (c : ascii) : bool :=
  (((9 <=? code c) && (code c <=? 13)) ||
   ((28 <=? code c) && (code c <=? 32)))%nat.

Definition to_lower (c : ascii) : ascii :=
  if in_range "A" "Z" c then ascii_of_nat (code c + 32) else c.

Definition is_empty (s : string) : bool :=
  match s with
  | EmptyString => true
  | String _ _ => false
  end.

Fixpoint lstrip (s : string) : string :=
  match s with
  | EmptyString => EmptyString
  | String c r => if is_space c then lstrip r else s
  end.

Fixpoint rstrip (s : string) : string :=
  match s with
  | EmptyString => EmptyString
  | String c r =>
      let r' := rstrip r in
      if is_space c && is_empty r' then EmptyString else String c r'
  end.

(** [s.strip()] *)
Definition strip (s : string) : string := rstrip (lstrip s).

(** [s.replace("Z", new)]: every occurrence of the one-character string. *)
Fixpoint replace_char (old : ascii) (new : string) (s : string) : string :=
  match s with
  | EmptyString => EmptyString
  | String c r =>
      if Ascii.eqb c old then new +:+ replace_char old new r
      else String c (replace_char old new r)
  end.

(** [str(n)] for an integer. *)
Definition str_of_int (n : Z) : string := NilZero.string_of_int (Z.to_int n).

Fixpoint zeros (n : nat) : string :=
  match n with
  | O => EmptyString
  | S k => String "0" (zeros k)
  end.

(** [f"{n:0wd}"] for [n >= 0]; a negative [n] is already [w = 2] characters
    wide or wider in every use the script makes of it. *)
Definition zfill (w : nat) (n : Z) : string :=
  let s := str_of_int n in
  zeros (w - String.length s) +:+ s.

(* ===================================================================== *)
(** ** Floats as exact rationals *)
(* ===================================================================== *)

Definition Qltb (x y : Q) : bool := negb (Qle_bool y x).

(** [a / b] raises [ZeroDivisionError] on a zero divisor. *)
Definition truediv (a b : Q) : res Q :=
  if Qeq_bool b 0 then Raise ZeroDivisionError else Ok (a / b)%Q.

(** [a // b] and [a % b] for a non-zero constant [b]. *)
Definition floordiv (a b : Q) : Q := inject_Z (Qfloor (a / b)).
Definition pymod (a b : Q) : Q := (a - b * inject_Z (Qfloor (a / b)))%Q.

(** [int(x)]: truncation towards zero. *)
Definition int_of_float (x : Q) : Z :=
  if Qle_bool 0 x then Qfloor x else Qceiling x.

(** Nearest integer, ties to even. *)
Definition round_half_even (x : Q) : Z :=
  let f := Qfloor x in
  let r := (x - inject_Z f)%Q in
  match Qcompare r (1 # 2) with
  | Lt => f
  | Gt => f + 1
  | Eq => if Z.even f then f else f + 1
  end.

(** [round(x, 2)], as a reduced fraction. *)
Definition round2 (x : Q) : Q := Qred (round_half_even (x * 100) # 100).

(* ===================================================================== *)
(** ** Calendar dates *)
(* ===================================================================== *)

Record ymd : Type := mk_ymd { year : Z; month : Z; day : Z }.

Definition is_leap (y : Z) : bool :=
  (y mod 4 =? 0) && (negb (y mod 100 =? 0) || (y mod 400 =? 0)).

Definition days_in_month (y m : Z) : Z :=
  if m =? 2 then (if is_leap y then 29 else 28)
  else if (m =? 4) || (m =? 6) || (m =? 9) || (m =? 11) then 30
  else 31.

(** The check [datetime.date(year, month, day)] makes. *)
Definition valid_date (d : ymd) : bool :=
  (1 <=? year d) && (year d <=? 9999) &&
  (1 <=? month d) && (month d <=? 12) &&
  (1 <=? day d) && (day d <=? days_in_month (year d) (month d)).

(* ===================================================================== *)
(** ** [datetime.strptime]: formats compiled to a backtracking matcher *)
(* ===================================================================== *)

(** The directives and literals of a format string. A run of white space in
    the format is the regular expression [\s+]. *)
Inductive directive : Type :=
  | DY | Dy | Dm | Dd | DB | Db
  | DLit (c : ascii)
  | DSpace.

Fixpoint compile_format (fmt : string) : option (list directive) :=
  match fmt with
  | EmptyString => Some []
  | String "%" (String k r) =>
      d ← (if Ascii.eqb k "Y" then Some DY
           else if Ascii.eqb k "y" then Some Dy
           else if Ascii.eqb k "m" then Some Dm
           else if Ascii.eqb k "d" then Some Dd
           else if Ascii.eqb k "B" then Some DB
           else if Ascii.eqb k "b" then Some Db
           else None);
      ds ← compile_format r;
      Some (d :: ds)
  | String "%" EmptyString => None
  | String c r =>
      ds ← compile_format r;
      Some (if is_space c
            then match ds with DSpace :: _ => ds | _ => DSpace :: ds end
            else DLit c :: ds)
  end.

(** Each matcher lists the ways its pattern can match a prefix of the input,
    in the order the regular-expression engine tries them; an element is the
    value read and the input left. *)

Definition one_char (p : ascii -> bool) (s : string) : list (Z * string) :=
  match s with
  | String a r => if p a then [(digit_val a, r)] else []
  | _ => []
  end.

Definition two_chars (p : ascii -> ascii -> bool) (s : string) : list (Z * string) :=
  match s with
  | String a (String b r) =>
      if p a b
      then [((if Ascii.eqb a " " then 0 else 10 * digit_val a) + digit_val b, r)]
      else []
  | _ => []
  end.

(** [%Y]: [\d\d\d\d] *)
Definition re_Y (s : string) : list (Z * string) :=
  match s with
  | String a (String b (String c (String d r))) =>
      if is_digit a && is_digit b && is_digit c && is_digit d
      then [(1000 * digit_val a + 100 * digit_val b + 10 * digit_val c + digit_val d, r)]
      else []
  | _ => []
  end.

(** [%y]: [\d\d], read as 2000 + y up to 68 and 1900 + y from 69 on. *)
Definition re_y (s : string) : list (Z * string) :=
  match two_chars (fun a b => is_digit a && is_digit b) s with
  | [(v, r)] => [(if v <=? 68 then 2000 + v else 1900 + v, r)]
  | _ => []
  end.

(** [%m]: [1[0-2]|0[1-9]|[1-9]] *)
Definition re_m (s : string) : list (Z * string) :=
  two_chars (fun a b => Ascii.eqb a "1" && in_range "0" "2" b) s ++
  two_chars (fun a b => Ascii.eqb a "0" && in_range "1" "9" b) s ++
  one_char (in_range "1" "9") s.

(** [%d]: [3[0-1]|[1-2]\d|0[1-9]|[1-9]| [1-9]] *)
Definition re_d (s : string) : list (Z * string) :=
  two_chars (fun a b => Ascii.eqb a "3" && in_range "0" "1" b) s ++
  two_chars (fun a b => in_range "1" "2" a && is_digit b) s ++
  two_chars (fun a b => Ascii.eqb a "0" && in_range "1" "9" b) s ++
  one_char (in_range "1" "9") s ++
  two_chars (fun a b => Ascii.eqb a " " && in_range "1" "9" b) s.

(** Case-insensitive match of a lower-case word at the head of the input. *)
Fixpoint match_word (w s : string) : option string :=
  match w with
  | EmptyString => Some s
  | String c w' =>
      match s with
      | String a r => if Ascii.eqb (to_lower a) c then match_word w' r else None
      | EmptyString => None
      end
  end.

Fixpoint re_names (names : list (string * Z)) (s : string) : list (Z * string) :=
  match names with
  | [] => []
  | (w, v) :: rest =>
      match match_word w s with
      | Some r => (v, r) :: re_names rest s
      | None => re_names rest s
      end
  end.

(** Month names in the order the alternation lists them: longest first,
    calendar order among names of one length. *)
Definition full_months : list (string * Z) :=
  [("september", 9); ("february", 2); ("november", 11); ("december", 12);
   ("january", 1); ("october", 10); ("august", 8); ("march", 3);
   ("april", 4); ("june", 6); ("july", 7); ("may", 5)].

Definition abbr_months : list (string * Z) :=
  [("jan", 1); ("feb", 2); ("mar", 3); ("apr", 4); ("may", 5); ("jun", 6);
   ("jul", 7); ("aug", 8); ("sep", 9); ("oct", 10); ("nov", 11); ("dec", 12)].

(** [\s+], greedy: the longest run first, then shorter ones. *)
Fixpoint re_spaces (s : string) : list string :=
  match s with
  | String c r => if is_space c then re_spaces r ++ [r] else []
  | EmptyString => []
  end.

Definition re_lit (c : ascii) (s : string) : list string :=
  match s with
  | String a r => if Ascii.eqb (to_lower a) (to_lower c) then [r] else []
  | EmptyString => []
  end.

Definition set_year (v : Z) (d : ymd) : ymd := mk_ymd v (month d) (day d).
Definition set_month (v : Z) (d : ymd) : ymd := mk_ymd (year d) v (day d).
Definition set_day (v : Z) (d : ymd) : ymd := mk_ymd (year d) (month d) v.

Definition with_field (set : Z -> ymd -> ymd) (acc : ymd)
    (l : list (Z * string)) : list (ymd * string) :=
  map (fun vr => (set (fst vr) acc, snd vr)) l.

Definition re_step (d : directive) (s : string) (acc : ymd) : list (ymd * string) :=
  match d with
  | DY => with_field set_year acc (re_Y s)
  | Dy => with_field set_year acc (re_y s)
  | Dm => with_field set_month acc (re_m s)
  | Dd => with_field set_day acc (re_d s)
  | DB => with_field set_month acc (re_names full_months s)
  | Db => with_field set_month acc (re_names abbr_months s)
  | DLit c => map (fun r => (acc, r)) (re_lit c s)
  | DSpace => map (fun r => (acc, r)) (re_spaces s)
  end.

(** All matches of the compiled pattern against a prefix of [s], first
    match first. *)
Fixpoint re_match (ds : list directive) (s : string) (acc : ymd) : list (ymd * string) :=
  match ds with
  | [] => [(acc, s)]
  | d :: ds' => flat_map (fun ar => re_match ds' (snd ar) (fst ar)) (re_step d s acc)
  end.

(** Fields a format leaves out default to 1900-01-01. *)
Definition default_fields : ymd := mk_ymd 1900 1 1.

Definition strptime (data_string fmt : string) : res ymd :=
  match compile_format fmt with
  | None => Raise (ValueError "bad directive in format")
  | Some ds =>
      match re_match ds data_string default_fields with
      | [] => Raise (ValueError "time data does not match format")
      | (d, rest) :: _ =>
          if is_empty rest
          then (if valid_date d then Ok d else Raise (ValueError "day is out of range"))
          else Raise (ValueError "unconverted data remains")
      end
  end.

(** [d.strftime(fmt)] for the directives [%Y], [%m], [%d] and literals. *)
Definition render (d : ymd) (x : directive) : string :=
  match x with
  | DY => zfill 4 (year d)
  | Dm => zfill 2 (month d)
  | Dd => zfill 2 (day d)
  | DLit c => String c EmptyString
  | DSpace => " "
  | _ => EmptyString
  end.

Definition strftime (d : ymd) (fmt : string) : string :=
  match compile_format fmt with
  | Some ds => fold_right (fun x acc => render d x +:+ acc) EmptyString ds
  | None => fmt
  end.

(* ===================================================================== *)
(** ** [datetime.fromisoformat] *)
(* ===================================================================== *)

(** The grammar is the one of Python 3.7 to 3.10:
    [YYYY-MM-DD[*HH[:MM[:SS[.fff[fff]]]][+HH:MM[:SS[.ffffff]]]]], where [*]
    is any one character. Only the calendar date of the result is used by
    the script, so the time of day and the offset are checked and dropped. *)

Definition two_digits (s : string) : option (Z * string) :=
  match s with
  | String a (String b r) =>
      if is_digit a && is_digit b then Some (10 * digit_val a + digit_val b, r) else None
  | _ => None
  end.

Definition expect (c : ascii) (s : string) : option string :=
  match s with
  | String a r => if Ascii.eqb a c then Some r else None
  | EmptyString => None
  end.

Fixpoint skip_digits (s : string) : nat * string :=
  match s with
  | String a r =>
      if is_digit a then (let nr := skip_digits r in (S (fst nr), snd nr)) else (O, s)
  | EmptyString => (O, s)
  end.

Definition iso_date (s : string) : option (ymd * string) :=
  match re_Y s with
  | [(y, r)] =>
      r1 ← expect "-" r;
      mr ← two_digits r1;
      r3 ← expect "-" (snd mr);
      dr ← two_digits r3;
      Some (mk_ymd y (fst mr) (fst dr), snd dr)
  | _ => None
  end.

Definition iso_fraction (s : string) : option string :=
  match s with
  | String "." r =>
      let nr := skip_digits r in
      if (fst nr =? 3)%nat || (fst nr =? 6)%nat then Some (snd nr) else None
  | _ => Some s
  end.

(** [HH[:MM[:SS[.fff[fff]]]]], each field in range. *)
Definition iso_hms (limit_h : Z) (s : string) : option string :=
  hr ← two_digits s;
  if negb (fst hr <? limit_h) then None else
  match snd hr with
  | String ":" r1 =>
      mr ← two_digits r1;
      if negb (fst mr <? 60) then None else
      match snd mr with
      | String ":" r3 =>
          sr ← two_digits r3;
          if negb (fst sr <? 60) then None else iso_fraction (snd sr)
      | r2 => Some r2
      end
  | r => Some r
  end.

Definition iso_time (s : string) : bool :=
  match iso_hms 24 s with
  | Some EmptyString => true
  | Some (String sign r) =>
      (Ascii.eqb sign "+" || Ascii.eqb sign "-") &&
      (4 <? Z.of_nat (String.length r)) &&
      match iso_hms 24 r with
      | Some EmptyString => true
      | _ => false
      end
  | None => false
  end.

Definition fromisoformat (date_string : string) : res ymd :=
  match iso_date date_string with
  | None => Raise (ValueError "Invalid isoformat string")
  | Some (d, rest) =>
      if negb (valid_date d) then Raise (ValueError "day is out of range")
      else match rest with
           | EmptyString => Ok d
           | String _ tstr =>
               if iso_time tstr then Ok d
               else Raise (ValueError "Invalid isoformat string")
           end
  end.

(* ===================================================================== *)
(** ** Configuration (config.json) *)
(* ===================================================================== *)

Record strava_section : Type := mk_strava {
  client_id : string;
  client_secret : string;
  access_token : string;
  refresh_token : string;
  token_expires_at : option Z          (* read with [.get(_, 0)] *)
}.

Record sheet_mapping : Type := mk_mapping {
  sheet_name : option string;          (* [.get("sheet_name", "Sheet1")] *)
  date_column : nat;
  distance_column : nat;
  pace_column : nat;
  duration_column : option nat;        (* optional *)
  notes_column : option nat            (* optional *)
}.

Record config : Type := mk_config {
  strava : strava_section;
  service_account_json : string;
  spreadsheet_id : string;
  units : option string;               (* [.get("units", "miles")] *)
  mapping : sheet_mapping
}.

(* ===================================================================== *)
(** ** HTTP *)
(* ===================================================================== *)

Record http_response (A : Type) : Type := Response { status : nat; json : A }.
Arguments Response {A} status json.
Arguments status {A} _.
Arguments json {A} _.

(** [resp.raise_for_status()] followed by [resp.json()]. *)
Definition raise_for_status {A : Type} (resp : http_response A) : res A :=
  if ((400 <=? status resp) && (status resp <? 600))%nat
  then Raise (HTTPError (status resp))
  else Ok (json resp).

(* ===================================================================== *)
(** ** [ensure_strava_token] *)
(* ===================================================================== *)

Record token_response : Type := mk_tokens {
  tr_access_token : string;
  tr_refresh_token : string;
  tr_expires_at : Z
}.

(** What the script does to the outside, in order. *)
Inductive event : Type :=
  | Printed (line : string)
  | Posted (url : string) (data : list (string * string))
  | Saved (cfg : config).             (* [save_config]: config.json rewritten *)

Definition token_url : string := "https://www.strava.com/oauth/token".

Definition refresh_form (s : strava_section) : list (string * string) :=
  [("client_id", client_id s);
   ("client_secret", client_secret s);
   ("grant_type", "refresh_token");
   ("refresh_token", refresh_token s)].

Definition set_tokens (cfg : config) (tokens : token_response) : config :=
  mk_config
    (mk_strava (client_id (strava cfg)) (client_secret (strava cfg))
       (tr_access_token tokens) (tr_refresh_token tokens)
       (Some (tr_expires_at tokens)))
    (service_account_json cfg) (spreadsheet_id cfg) (units cfg) (mapping cfg).

(** [post] is the token endpoint and [now] the reading of [time.time()].
    The result is the returned value or the exception, the config dict as
    the call leaves it, and the events of the call. *)
Definition ensure_strava_token
    (post : string -> list (string * string) -> http_response token_response)
    (now : Q) (cfg : config) : res string * config * list event :=
  let expires_at := default 0 (token_expires_at (strava cfg)) in
  if Qltb now (inject_Z (expires_at - 60)) then
    (Ok (access_token (strava cfg)), cfg, [])
  else
    let form := refresh_form (strava cfg) in
    let resp := post token_url form in
    let sent := [Printed "   Refreshing Strava access token..."; Posted token_url form] in
    match raise_for_status resp with
    | Raise e => (Raise e, cfg, sent)
    | Ok tokens =>
        let cfg' := set_tokens cfg tokens in
        (Ok (tr_access_token tokens), cfg', sent ++ [Saved cfg'])
    end.

(* ===================================================================== *)
(** ** [fetch_activities] *)
(* ===================================================================== *)

Record raw_activity : Type := mk_raw {
  ra_distance : Q;                      (* meters *)
  ra_moving_time : Z;                   (* seconds *)
  ra_type : option string;              (* [.get("type")] *)
  ra_start_date_local : option string;  (* [.get("start_date_local", ...)] *)
  ra_start_date : option string;        (* [["start_date"]], see [parse_activity] *)
  ra_name : option string               (* [.get("name", "")] *)
}.

Record activities_request : Type := mk_request {
  rq_bearer : string;
  rq_after : Z;
  rq_page : nat;
  rq_per_page : nat
}.

Definition per_page : nat := 50.

(** The [while True] loop. [fuel] bounds the number of iterations the model
    follows; [None] means the bound was reached with the loop still running.
    The result carries the requests sent so far, oldest first. *)
Fixpoint fetch_loop (fuel : nat)
    (get : activities_request -> http_response (list raw_activity))
    (access_token : string) (after : Z) (page : nat)
    (activities : list raw_activity) (sent : list activities_request)
    : option (res (list raw_activity) * list activities_request) :=
  match fuel with
  | O => None
  | S fuel' =>
      let rq := mk_request access_token after page per_page in
      let sent' := sent ++ [rq] in
      match raise_for_status (get rq) with
      | Raise e => Some (Raise e, sent')
      | Ok batch =>
          match batch with
          | [] => Some (Ok activities, sent')
          | _ :: _ =>
              let activities' := activities ++ batch in
              if (length batch <? per_page)%nat then Some (Ok activities', sent')
              else fetch_loop fuel' get access_token after (S page) activities' sent'
          end
      end
  end.

(** The pages retrieved, before the filter. *)
Definition fetch_pages (fuel : nat)
    (get : activities_request -> http_response (list raw_activity))
    (access_token : string) (after_timestamp : Q)
    : option (res (list raw_activity) * list activities_request) :=
  fetch_loop fuel get access_token (int_of_float after_timestamp) 1%nat [] [].

Definition has_type (activity_type : string) (a : raw_activity) : bool :=
  match ra_type a with
  | Some t => String.eqb t activity_type
  | None => false
  end.

Definition filter_type (activity_type : option string) (activities : list raw_activity)
    : list raw_activity :=
  match activity_type with
  | Some (String c t) => List.filter (has_type (String c t)) activities
  | _ => activities
  end.

Definition fetch_activities (fuel : nat)
    (get : activities_request -> http_response (list raw_activity))
    (access_token : string) (after_timestamp : Q) (activity_type : option string)
    : option (res (list raw_activity) * list activities_request) :=
  match fetch_pages fuel get access_token after_timestamp with
  | None => None
  | Some (Raise e, sent) => Some (Raise e, sent)
  | Some (Ok activities, sent) => Some (Ok (filter_type activity_type activities), sent)
  end.

(* ===================================================================== *)
(** ** [parse_activity] *)
(* ===================================================================== *)

Record activity_record : Type := mk_record {
  act_date : string;
  act_distance : Q;
  act_pace : string;
  act_duration : string;
  act_name : string
}.

Definition parse_activity (activity : raw_activity) (units : string)
    : res activity_record :=
  (* Distance: Strava returns meters *)
  let distance_m := ra_distance activity in
  let distance :=
    if String.eqb units "miles" then (distance_m / 1609.344)%Q
    else (distance_m / 1000)%Q in
  (* Pace: minutes per unit *)
  let moving_time_s := ra_moving_time activity in
  pace_str ←
    (if Qltb 0 distance then
       pace_total_seconds ← truediv (inject_Z moving_time_s) distance;
       let pace_min := int_of_float (floordiv pace_total_seconds 60) in
       let pace_sec := int_of_float (pymod pace_total_seconds 60) in
       Ok (str_of_int pace_min +:+ ":" +:+ zfill 2 pace_sec)
     else Ok "N/A");
  (* Duration as HH:MM:SS *)
  let hours := moving_time_s / 3600 in
  let mins := (moving_time_s mod 3600) / 60 in
  let secs := moving_time_s mod 60 in
  let duration_str :=
    if negb (hours =? 0)
    then str_of_int hours +:+ ":" +:+ zfill 2 mins +:+ ":" +:+ zfill 2 secs
    else str_of_int mins +:+ ":" +:+ zfill 2 secs in
  (* Date (local to the activity); the default of [.get] is evaluated first *)
  start_date ← subscript "start_date" (ra_start_date activity);
  let start_local := default start_date (ra_start_date_local activity) in
  dt ← fromisoformat (replace_char "Z" "+00:00" start_local);
  let date_str := strftime dt "%Y-%m-%d" in
  Ok (mk_record date_str (round2 distance) pace_str duration_str
        (default EmptyString (ra_name activity))).

(* ===================================================================== *)
(** ** The worksheet *)
(* ===================================================================== *)

Inductive sheet_value : Type :=
  | VNum (q : Q)
  | VStr (s : string).

#[export] Instance Q_eq_dec : EqDecision Q.
Proof. solve_decision. Defined.

#[export] Instance sheet_value_eq_dec : EqDecision sheet_value.
Proof. solve_decision. Defined.

(** [gspread.Cell(row, col, value)] *)
Record Cell : Type := mk_cell { cell_row : nat; cell_col : nat; cell_value : sheet_value }.

(** A sheet is a grid of [row_count] rows; [cells] holds what was entered,
    keyed by (row, column), both counted from 1. *)
Record worksheet : Type := mk_sheet {
  row_count : nat;
  cells : gmap (nat * nat) sheet_value
}.

Definition drop_trailing_empty (l : list string) : list string :=
  fold_right
    (fun x acc => match acc with
                  | [] => if is_empty x then [] else [x]
                  | _ :: _ => x :: acc
                  end) [] l.

Section Sheet.
(** The text the store shows for an entered value. *)
Variable display : sheet_value -> string.

Definition cell_text (ws : worksheet) (r c : nat) : string :=
  match cells ws !! (r, c) with
  | Some v => display v
  | None => EmptyString
  end.

(** [worksheet.col_values(col)]: the column top to bottom, down to its
    last non-empty cell. *)
Definition col_values (ws : worksheet) (c : nat) : list string :=
  drop_trailing_empty (map (fun r => cell_text ws r c) (seq 1 (row_count ws))).
End Sheet.

(** [worksheet.update_cells(cell_list, ...)]: the listed cells are set, in
    list order, and no other cell changes. *)
Definition update_cells (ws : worksheet) (cell_list : list Cell) : worksheet :=
  mk_sheet (row_count ws)
    (foldl (fun m c => <[(cell_row c, cell_col c) := cell_value c]> m) (cells ws) cell_list).

(* ===================================================================== *)
(** ** [normalize_date] and [find_date_row] *)
(* ===================================================================== *)

Definition formats : list string :=
  ["%Y-%m-%d"; "%m/%d/%Y"; "%m/%d/%y"; "%d/%m/%Y"; "%B %d, %Y"; "%b %d, %Y"].

(** The [for fmt in ...] loop with its [try]: [Some] is the [return] inside
    the loop, [None] means the loop ran to its end. *)
Fixpoint try_formats (fmts : list string) (val : string) : option string :=
  match fmts with
  | [] => None
  | fmt :: rest =>
      match strptime (strip val) fmt with
      | Ok d => Some (strftime d "%Y-%m-%d")
      | Raise _ => try_formats rest val      (* only ValueError is raised *)
      end
  end.

(** [None] is Python's [None]. *)
Definition normalize_date (val : string) : option string :=
  if is_empty val then None
  else match try_formats formats val with
       | Some r => Some r
       | None => Some (strip val)
       end.

Definition same_date (normalized : option string) (date_str : string) : bool :=
  match normalized with
  | Some s => String.eqb s date_str
  | None => false
  end.

(** The [for i, val in enumerate(date_values, start=i)] loop. *)
Fixpoint scan_dates (i : nat) (date_values : list string) (date_str : string) : option nat :=
  match date_values with
  | [] => None
  | val :: rest =>
      if same_date (normalize_date val) date_str then Some i
      else scan_dates (S i) rest date_str
  end.

Definition find_date_row (display : sheet_value -> string) (ws : worksheet)
    (date_str : string) (date_col : nat) : option nat :=
  scan_dates 1 (col_values display ws date_col) date_str.

(* ===================================================================== *)
(** ** [update_sheet] *)
(* ===================================================================== *)

(** Truth value of an optional column: [None] and [0] are false. *)
Definition truthy_col (c : option nat) : option nat :=
  match c with
  | Some (S n) => Some (S n)
  | _ => None
  end.

(** The batch built for a matched record. *)
Definition cells_to_update (m : sheet_mapping) (row : nat) (act : activity_record)
    : list Cell :=
  [mk_cell row (distance_column m) (VNum (act_distance act));
   mk_cell row (pace_column m) (VStr (act_pace act))]
  ++ match truthy_col (duration_column m) with
     | Some duration_col => [mk_cell row duration_col (VStr (act_duration act))]
     | None => []
     end
  ++ match truthy_col (notes_column m) with
     | Some notes_col =>
         if is_empty (act_name act) then []
         else [mk_cell row notes_col (VStr (act_name act))]
     | None => []
     end.

(** The state of a run of [update_sheet]: the sheet, the batches handed to
    [update_cells] so far (oldest first), and the two results. *)
Record sheet_run : Type := mk_run {
  run_sheet : worksheet;
  run_batches : list (list Cell);
  run_updates : nat;
  run_skipped : list string
}.

(** One iteration of the [for act in activities_parsed] loop. *)
Definition update_sheet_step (display : sheet_value -> string) (m : sheet_mapping)
    (st : sheet_run) (act : activity_record) : sheet_run :=
  match find_date_row display (run_sheet st) (act_date act) (date_column m) with
  | None =>
      mk_run (run_sheet st) (run_batches st) (run_updates st)
        (run_skipped st ++ [act_date act])
  | Some row =>
      let batch := cells_to_update m row act in
      mk_run (update_cells (run_sheet st) batch) (run_batches st ++ [batch])
        (S (run_updates st)) (run_skipped st)
  end.

(** [ws] is the worksheet [open_sheet] and [spreadsheet.worksheet] hand
    back. The line printed for each update is left out of the state. *)
Definition update_sheet (display : sheet_value -> string) (m : sheet_mapping)
    (activities_parsed : list activity_record) (ws : worksheet) : sheet_run :=
  foldl (update_sheet_step display m) (mk_run ws [] O []) activities_parsed.

(* ===================================================================== *)
(** ** [main]: sort, then write *)
(* ===================================================================== *)

(** [parsed.sort(key=lambda x: x["date"])]. Python's sort is stable and
    compares the keys as strings, character code by character code; a
    stable sort has one result, computed here by insertion. *)
Fixpoint insert_by_date (x : activity_record) (l : list activity_record)
    : list activity_record :=
  match l with
  | [] => [x]
  | y :: l' =>
      if String.leb (act_date x) (act_date y) then x :: l
      else y :: insert_by_date x l'
  end.

Definition sort_by_date (parsed : list activity_record) : list activity_record :=
  fold_right insert_by_date [] parsed.

(** Lines 360 to 373 of [main]: parse every activity, sort, write. *)
Definition parse_all (activities : list raw_activity) (units : string)
    : res (list activity_record) :=
  mapM (fun a => parse_activity a units) activities.

Definition main_write (display : sheet_value -> string) (cfg : config)
    (parsed : list activity_record) (ws : worksheet) : sheet_run :=
  update_sheet display (mapping cfg) (sort_by_date parsed) ws.

(* ===================================================================== *)
(** ** [strava_initial_auth] *)
(* ===================================================================== *)

(** How a procedure that may call [sys.exit] ends. *)
Inductive outcome (A : Type) : Type :=
  | Returned (a : A)
  | Exited (status : nat)
  | Raised (e : exn).
Arguments Returned {A} a.
Arguments Exited {A} status.
Arguments Raised {A} e.

Definition authorization_form (s : strava_section) (code : string)
    : list (string * string) :=
  [("client_id", client_id s);
   ("client_secret", client_secret s);
   ("code", code);
   ("grant_type", "authorization_code")].

(** [auth_code] is [OAuthCallbackHandler.auth_code] after the one request
    the local server handles: the [code] parameter of the redirect, or
    [None]. The browser, the local server and the lines printed are left
    out; the events are the post to the token endpoint and the save. *)
Definition strava_initial_auth
    (post : string -> list (string * string) -> http_response token_response)
    (auth_code : option string) (cfg : config)
    : outcome unit * config * list event :=
  match auth_code with
  | Some (String c rest) =>
      let code := String c rest in
      let form := authorization_form (strava cfg) code in
      let resp := post token_url form in
      match raise_for_status resp with
      | Raise e => (Raised e, cfg, [Posted token_url form])
      | Ok tokens =>
          let cfg' := set_tokens cfg tokens in
          (Returned tt, cfg', [Posted token_url form; Saved cfg'])
      end
  | _ => (Exited 1, cfg, [])           (* [if not code: sys.exit(1)] *)
  end.

(* ===================================================================== *)
(** ** [main], from the command line to the sheet *)
(* ===================================================================== *)

(** The command line: [--auth], [--days N], [--dry-run]. *)
Record arguments : Type := mk_args {
  arg_auth : bool;
  arg_days : Z;
  arg_dry_run : bool
}.

(** What [main] finds around it. *)
Record environment : Type := mk_env {
  env_config : option config;          (* config.json, [None] when it is missing *)
  env_exists : string -> bool;         (* [os.path.exists] *)
  env_time : Q;                        (* [time.time()] *)
  env_utcnow : Q;                      (* [datetime.now(timezone.utc).timestamp()] *)
  env_auth_code : option string;       (* the code the redirect delivers *)
  env_post : string -> list (string * string) -> http_response token_response;
  env_get : activities_request -> http_response (list raw_activity);
  env_display : sheet_value -> string;
  env_sheet : worksheet                (* the worksheet [open_sheet] leads to *)
}.

(** What [main] has done when it ends: how it ended, the token events, the
    page requests, and the run of [update_sheet] when it was reached. *)
Record main_result : Type := mk_result {
  res_outcome : outcome unit;
  res_events : list event;
  res_requests : list activities_request;
  res_sheet : option sheet_run
}.

(** [fuel] bounds the pagination loop as in [fetch_loop]; console output is
    left out. A missing [refresh_token] is the empty string. *)
Definition main (fuel : nat) (args : arguments) (env : environment)
    : option main_result :=
  match env_config env with
  | None => Some (mk_result (Exited 1) [] [] None)             (* [load_config] *)
  | Some cfg =>
      if arg_auth args then
        let out := strava_initial_auth (env_post env) (env_auth_code env) cfg in
        Some (mk_result (fst (fst out)) (snd out) [] None)
      else if is_empty (refresh_token (strava cfg)) then
        Some (mk_result (Exited 1) [] [] None)
      else if negb (env_exists env (service_account_json cfg)) then
        Some (mk_result (Exited 1) [] [] None)
      else
        let tok := ensure_strava_token (env_post env) (env_time env) cfg in
        match fst (fst tok) with
        | Raise e => Some (mk_result (Raised e) (snd tok) [] None)
        | Ok access_token =>
            let cfg' := snd (fst tok) in
            let after_ts := (env_utcnow env - 86400 * inject_Z (arg_days args))%Q in
            match fetch_activities fuel (env_get env) access_token after_ts (Some "Run"%string) with
            | None => None
            | Some (Raise e, sent) => Some (mk_result (Raised e) (snd tok) sent None)
            | Some (Ok [], sent) => Some (mk_result (Returned tt) (snd tok) sent None)
            | Some (Ok activities, sent) =>
                match parse_all activities (default "miles"%string (units cfg')) with
                | Raise e => Some (mk_result (Raised e) (snd tok) sent None)
                | Ok parsed =>
                    if arg_dry_run args then
                      Some (mk_result (Returned tt) (snd tok) sent None)
                    else
                      Some (mk_result (Returned tt) (snd tok) sent
                              (Some (main_write (env_display env) cfg' parsed (env_sheet env))))
                end
            end
        end
  end.

(* ===================================================================== *)
(** ** Vocabulary of the statements and sample data *)
(* ===================================================================== *)

(** The request the loop sends for page [p]. *)
Definition request_page (token : string) (after : Z) (p : nat) : activities_request :=
  mk_request token after p per_page.

(** [pages i] is the body of the answer to the request for page [i + 1];
    [pages_upto pages j k] is pages [j + 1] to [j + k], one after the other. *)
Definition pages_upto (pages : nat -> list raw_activity) (j k : nat) : list raw_activity :=
  concat (map pages (seq j k)).

(** Row [r] of the date column shows a date that normalizes to [date_str]. *)
Definition row_matches (display : sheet_value -> string) (ws : worksheet)
    (date_col : nat) (date_str : string) (r : nat) : Prop :=
  normalize_date (cell_text display ws r date_col) = Some date_str.

(** The batch of a record, for the row its date has in the sheet [ws]. *)
Definition batch_of (display : sheet_value -> string) (m : sheet_mapping)
    (ws : worksheet) (act : activity_record) : option (list Cell) :=
  (fun row => cells_to_update m row act)
    <$> find_date_row display ws (act_date act) (date_column m).

(** [config["strava"].get("token_expires_at", 0)] *)
Definition expires_at (cfg : config) : Z := default 0 (token_expires_at (strava cfg)).

(** A config whose token expires at [expires], and a token endpoint that
    answers every request with a new token. *)
Definition sample_config (expires : Z) : config :=
  mk_config (mk_strava "id" "secret" "cached" "refresh-0" (Some expires))
    "service.json" "sheet-id" None
    (mk_mapping None 1 5 6 (Some 7%nat) (Some 8%nat)).

Definition sample_endpoint (url : string) (data : list (string * string))
    : http_response token_response :=
  Response 200 (mk_tokens "renewed" "refresh-1" 9999).

(** The raw activity of the example; [start_date] is the key the script
    reads before it looks at [start_date_local]. *)
Definition morning_run (start_date : option string) : raw_activity :=
  mk_raw 10000 3000 (Some "Run") (Some "2024-03-15T07:00:00Z") start_date
    (Some "Morning Run").

(** An activities endpoint with a full first page and three activities on
    the second. *)
Definition sample_activity : raw_activity :=
  mk_raw 5000 1500 (Some "Run") None (Some "2024-03-15T07:00:00Z") None.

Definition sample_server (rq : activities_request) : http_response (list raw_activity) :=
  Response 200
    match rq_page rq with
    | 1%nat => repeat sample_activity 50
    | 2%nat => repeat sample_activity 3
    | _ => []
    end.

(** The value a batch leaves at a position: that of the last listed cell
    there, if any. *)
Fixpoint batch_lookup (batch : list Cell) (k : nat * nat) : option sheet_value :=
  match batch with
  | [] => None
  | c :: rest =>
      match batch_lookup rest k with
      | Some v => Some v
      | None => if decide ((cell_row c, cell_col c) = k) then Some (cell_value c) else None
      end
  end.

(** The columns a run can write: distance, pace, and the optional ones that
    are configured to a non-zero column. *)
Definition written_columns (m : sheet_mapping) : list nat :=
  [distance_column m; pace_column m]
  ++ option_list (truthy_col (duration_column m))
  ++ option_list (truthy_col (notes_column m)).

(** How the sample sheets show a value: text as it is, a non-negative
    number with two decimals. *)
Definition show_value (v : sheet_value) : string :=
  match v with
  | VStr s => s
  | VNum q => str_of_int (Qfloor q) +:+ "." +:+ zfill 2 (Qfloor (q * 100) mod 100)
  end.

(** A sheet with the date in column 1; rows 1 and 3 show the same day in
    two formats. *)
Definition sample_mapping : sheet_mapping :=
  mk_mapping None 1 5 6 (Some 7%nat) (Some 8%nat).

Definition sample_sheet : worksheet :=
  mk_sheet 3 (<[(1%nat, 1%nat) := VStr "3/15/2024"]>
              (<[(2%nat, 1%nat) := VStr "March 16, 2024"]>
              (<[(3%nat, 1%nat) := VStr "2024-03-15"]> ∅))).

(** Two records of one day, one of them without a name. *)
Definition unnamed_run : activity_record :=
  mk_record "2024-03-15" 6.21 "8:02" "50:00" EmptyString.

Definition named_run : activity_record :=
  mk_record "2024-03-15" 3.1 "9:40" "30:00" "Morning Run".

(** A mapping whose date column is also its distance column. *)
Definition overlapping_mapping : sheet_mapping := mk_mapping None 1 1 6 None None.

Definition one_date_sheet : worksheet :=
  mk_sheet 1 (<[(1%nat, 1%nat) := VStr "2024-03-15"]> ∅).

(** The order of the sort, and the records of one date. *)
Definition date_le (x y : activity_record) : Prop :=
  String.leb (act_date x) (act_date y) = true.

Definition on_date (d : string) (a : activity_record) : bool :=
  String.eqb (act_date a) d.

(** The digits of a number below 100, and below 10000. *)
Definition two_digit_string (n : Z) : string :=
  String (digit_char (n / 10)) (String (digit_char (n mod 10)) EmptyString).

Definition four_digit_string (n : Z) : string :=
  String (digit_char (n / 1000))
    (String (digit_char (n / 100 mod 10)) (two_digit_string (n mod 100))).

(** YYYY-MM-DD: four digits, a hyphen, two digits, a hyphen, two digits. *)
Definition is_canonical (s : string) : bool :=
  match s with
  | String y1 (String y2 (String y3 (String y4 (String h1 (String m1 (String m2
      (String h2 (String d1 (String d2 EmptyString))))))))) =>
      is_digit y1 && is_digit y2 && is_digit y3 && is_digit y4
      && Ascii.eqb h1 "-" && is_digit m1 && is_digit m2
      && Ascii.eqb h2 "-" && is_digit d1 && is_digit d2
  | _ => false
  end.

Definition canonical_string (y1 y2 y3 y4 m1 m2 d1 d2 : ascii) : string :=
  String y1 (String y2 (String y3 (String y4 (String "-" (String m1 (String m2
    (String "-" (String d1 (String d2 EmptyString))))))))).

(** A token endpoint that refuses every request. *)
Definition failing_endpoint (url : string) (data : list (string * string))
    : http_response token_response :=
  Response 401 (mk_tokens EmptyString EmptyString 0).

(** A server every page of which is full. *)
Definition endless_server (rq : activities_request) : http_response (list raw_activity) :=
  Response 200 (repeat sample_activity 50).

(** A server that gives one full page and then fails. *)
Definition broken_server (rq : activities_request) : http_response (list raw_activity) :=
  match rq_page rq with
  | 1%nat => Response 200 (repeat sample_activity 50)
  | _ => Response 503 []
  end.

(** A record of the day after [named_run]. *)
Definition next_day_run : activity_record :=
  mk_record "2024-03-16" 5 "9:00" "45:00" "Recovery".

(** What [main] finds on a day with one run: a token still fresh, the
    service account file in place, the sample server and the sample sheet. *)
Definition sample_environment : environment :=
  mk_env (Some (sample_config 4600)) (fun _ => true) 1000 1700000000 None
    sample_endpoint sample_server show_value sample_sheet.

(* ===================================================================== *)
(** * Properties *)
(* ===================================================================== *)

(* --------------------------------------------------------------------- *)
(** ** Token freshness *)
(* --------------------------------------------------------------------- *)

(** The margin test of the script, [now < expires_at - 60], is the test
    [expires_at - now > 60] of the specification. *)
Lemma fresh_iff (now : Q) (e : Z) :
  Qltb now (inject_Z (e - 60)) = true <-> (60 < inject_Z e - now)%Q.
Proof.
  unfold Qltb. rewrite negb_true_iff, <- not_true_iff_false, Qle_bool_iff.
  unfold Z.sub. rewrite inject_Z_plus, inject_Z_opp.
  change (inject_Z 60) with 60%Q.
  split; intros H.
  - apply Qnot_le_lt in H. lra.
  - apply Qlt_not_le. lra.
Qed.

Lemma raise_for_status_ok {A : Type} (resp : http_response A) :
  (status resp < 400 \/ 600 <= status resp)%nat ->
  raise_for_status resp = Ok (json resp).
Proof.
  intros H. unfold raise_for_status.
  destruct (400 <=? status resp)%nat eqn:E1; [|done].
  destruct (status resp <? 600)%nat eqn:E2; [|done].
  apply Nat.leb_le in E1. apply Nat.ltb_lt in E2. lia.
Qed.

(** C1. With more than 60 seconds left on the credential the cached access
    token is returned, the config is untouched and nothing is printed,
    posted or saved. Otherwise the refresh form is posted to the token
    endpoint; whenever the call returns a token, that token is the one of
    the response, it has been stored in the config and the config saved as
    the last event; the call does return when the endpoint answers with a
    status outside 400..599. *)
Theorem ensure_strava_token_freshness
    (post : string -> list (string * string) -> http_response token_response)
    (now : Q) (cfg : config) :
  ((60 < inject_Z (expires_at cfg) - now)%Q ->
     ensure_strava_token post now cfg = (Ok (access_token (strava cfg)), cfg, []))
  /\
  (~ (60 < inject_Z (expires_at cfg) - now)%Q ->
     let resp := post token_url (refresh_form (strava cfg)) in
     let out := ensure_strava_token post now cfg in
     In (Posted token_url (refresh_form (strava cfg))) (snd out)
     /\ (forall tok, fst (fst out) = Ok tok ->
           tok = tr_access_token (json resp)
           /\ snd (fst out) = set_tokens cfg (json resp)
           /\ access_token (strava (snd (fst out))) = tok
           /\ last (snd out) = Some (Saved (snd (fst out))))
     /\ ((status resp < 400 \/ 600 <= status resp)%nat ->
           fst (fst out) = Ok (tr_access_token (json resp)))).
Proof.
  unfold ensure_strava_token. fold (expires_at cfg).
  split.
  - intros H. apply fresh_iff in H. by rewrite H.
  - intros H. destruct (Qltb now (inject_Z (expires_at cfg - 60))) eqn:E.
    { exfalso. apply H. by apply fresh_iff. }
    cbv zeta. split; [|split].
    + destruct (raise_for_status _); cbn; auto.
    + intros tok. unfold raise_for_status.
      destruct (_ && _)%bool; cbn; [discriminate|].
      intros [= <-]. done.
    + intros Hs. by rewrite (raise_for_status_ok _ Hs).
Qed.

Lemma ensure_strava_token_freshness_witness :
  ensure_strava_token sample_endpoint 1000 (sample_config 4600)
    = (Ok "cached", sample_config 4600, [])
  /\ fst (fst (ensure_strava_token sample_endpoint 1000 (sample_config 1030)))
    = Ok "renewed".
Proof.
  split.
  - apply (proj1 (ensure_strava_token_freshness sample_endpoint 1000 (sample_config 4600))).
    vm_compute. reflexivity.
  - apply (proj2 (ensure_strava_token_freshness sample_endpoint 1000 (sample_config 1030))).
    + vm_compute. discriminate.
    + left. vm_compute. lia.
Defined.

(* --------------------------------------------------------------------- *)
(** ** The end-to-end example of [parse_activity] *)
(* --------------------------------------------------------------------- *)

(** The pace is computed from the unrounded distance: 3000 / 6.2137... is
    482.8 seconds, 8 minutes and 2 seconds. Without the key [start_date]
    the lookup of the default raises before the date is read. *)
Lemma parse_activity_example_pace :
  (exists r, parse_activity (morning_run (Some "2024-03-15T14:00:00Z")) "miles" = Ok r
             /\ act_pace r = "8:02" /\ act_pace r <> "8:03")
  /\ parse_activity (morning_run None) "miles" = Raise (KeyError "start_date").
Proof.
  split.
  - eexists. split; [vm_compute; reflexivity|]. split; [reflexivity|discriminate].
  - vm_compute. reflexivity.
Qed.

(** C2 (amended). For the raw activity of the example, carrying the
    [start_date] key every Strava activity has, and units = miles,
    [parse_activity] yields distance 6.21, pace "8:02" (moving time divided
    by the unrounded distance in miles), duration "50:00" and date
    "2024-03-15". *)
Theorem parse_activity_example (start_date : string) :
  parse_activity (morning_run (Some start_date)) "miles"
  = Ok (mk_record "2024-03-15" 6.21 "8:02" "50:00" "Morning Run").
Proof. vm_compute. reflexivity. Qed.

(* --------------------------------------------------------------------- *)
(** ** Pagination *)
(* --------------------------------------------------------------------- *)

Section Pagination.
Variable get : activities_request -> http_response (list raw_activity).
Variable token : string.
Variable after : Z.
(** [pages i] is the body of the answer to the request for page [i + 1]. *)
Variable pages : nat -> list raw_activity.

Lemma pages_upto_step j k :
  pages j ++ pages_upto pages (S j) k = pages_upto pages j (S k).
Proof. reflexivity. Qed.

Lemma pages_upto_length j k :
  (forall i, (j <= i < j + k)%nat -> length (pages i) = per_page) ->
  length (pages_upto pages j k) = (k * per_page)%nat.
Proof.
  revert j. induction k as [|k IH]; intros j H; [reflexivity|].
  unfold pages_upto. cbn [seq map concat]. rewrite length_app.
  rewrite (H j) by lia. fold (pages_upto pages (S j) k).
  rewrite IH; [lia|]. intros i Hi. apply H. lia.
Qed.

(** The loop started at page [j + 1] with [n] full pages and then a short
    one ahead of it. *)
Lemma fetch_loop_full_then_short (n : nat) :
  forall (j fuel : nat) (acc : list raw_activity) (sent : list activities_request)
         (short : list raw_activity),
  (forall i, (j <= i < j + n)%nat ->
     raise_for_status (get (request_page token after (S i))) = Ok (pages i)
     /\ length (pages i) = per_page) ->
  raise_for_status (get (request_page token after (S (j + n)))) = Ok short ->
  (length short < per_page)%nat ->
  (n < fuel)%nat ->
  fetch_loop fuel get token after (S j) acc sent
  = Some (Ok (acc ++ pages_upto pages j n ++ short),
          sent ++ map (request_page token after) (seq (S j) (S n))).
Proof.
  induction n as [|n IH]; intros j fuel acc sent short Hfull Hshort Hlen Hfuel.
  - destruct fuel as [|fuel]; [lia|]. cbn [fetch_loop].
    fold (request_page token after (S j)).
    replace (j + 0)%nat with j in Hshort by lia. rewrite Hshort.
    destruct short as [|a short].
    + cbn. by rewrite app_nil_r.
    + apply Nat.ltb_lt in Hlen. rewrite Hlen. reflexivity.
  - destruct fuel as [|fuel]; [lia|]. cbn [fetch_loop].
    fold (request_page token after (S j)).
    destruct (Hfull j ltac:(lia)) as [Hj Hjlen]. rewrite Hj.
    destruct (pages j) as [|a p] eqn:Ep; [discriminate Hjlen|].
    rewrite Hjlen, Nat.ltb_irrefl.
    rewrite (IH (S j) fuel _ _ short); [| |by replace (S j + n)%nat with (j + S n)%nat by lia|done|lia].
    + rewrite <- pages_upto_step, Ep, <- !app_assoc. reflexivity.
    + intros i Hi. apply Hfull. lia.
Qed.
End Pagination.

(** C4. When the first [k] pages hold exactly 50 items each and page
    [k + 1] holds fewer than 50, the loop, given room for more than [k]
    iterations, ends; it has sent exactly the requests for pages 1 to
    [k + 1], in that order, and the activities accumulated before the
    filter are the pages in order, [k * 50] plus the length of the short
    page in number. *)
Theorem fetch_activities_pagination
    (get : activities_request -> http_response (list raw_activity))
    (token : string) (after_timestamp : Q)
    (pages : nat -> list raw_activity) (short : list raw_activity)
    (k fuel : nat) :
  let rq := request_page token (int_of_float after_timestamp) in
  (forall i, (i < k)%nat ->
     raise_for_status (get (rq (S i))) = Ok (pages i) /\ length (pages i) = 50%nat) ->
  raise_for_status (get (rq (S k))) = Ok short ->
  (length short < 50)%nat ->
  (k < fuel)%nat ->
  exists activities,
    fetch_pages fuel get token after_timestamp
      = Some (Ok activities, map rq (seq 1 (S k)))
    /\ activities = pages_upto pages 0 k ++ short
    /\ length activities = (k * 50 + length short)%nat
    /\ forall activity_type,
         fetch_activities fuel get token after_timestamp activity_type
         = Some (Ok (filter_type activity_type activities), map rq (seq 1 (S k))).
Proof.
  intros rq Hfull Hshort Hlen Hfuel.
  assert (Hrun : fetch_pages fuel get token after_timestamp
                 = Some (Ok (pages_upto pages 0 k ++ short), map rq (seq 1 (S k)))).
  { unfold fetch_pages.
    rewrite (fetch_loop_full_then_short get token _ pages k 0 fuel [] [] short); auto.
    intros i Hi. apply Hfull. lia. }
  eexists. split; [exact Hrun|]. split; [reflexivity|]. split.
  - rewrite length_app, (pages_upto_length pages 0 k); [reflexivity|].
    intros i Hi. apply Hfull. lia.
  - intros ty. unfold fetch_activities. by rewrite Hrun.
Qed.

Lemma fetch_activities_pagination_witness :
  exists activities,
    fetch_pages 2 sample_server "token" 1700000000.5
      = Some (Ok activities,
              [mk_request "token" 1700000000 1 50; mk_request "token" 1700000000 2 50])
    /\ length activities = 53%nat.
Proof.
  destruct (fetch_activities_pagination sample_server "token" 1700000000.5
              (fun _ => repeat sample_activity 50) (repeat sample_activity 3) 1 2)
    as (activities & Hrun & _ & Hlen & _).
  - intros i Hi. assert (i = 0%nat) as -> by lia. split; reflexivity.
  - reflexivity.
  - vm_compute. lia.
  - lia.
  - exists activities. split; [exact Hrun | exact Hlen].
Defined.

(* --------------------------------------------------------------------- *)
(** ** The worksheet: reading a column, writing a batch *)
(* --------------------------------------------------------------------- *)

Lemma normalize_date_empty : normalize_date EmptyString = None.
Proof. reflexivity. Qed.

Lemma same_date_iff (val date_str : string) :
  same_date (normalize_date val) date_str = true <-> normalize_date val = Some date_str.
Proof.
  unfold same_date. destruct (normalize_date val) as [s|]; [|by split].
  rewrite String.eqb_eq. split; congruence.
Qed.

(** Empty cells never match, so the trailing ones [col_values] leaves out
    do not matter to the scan. *)
Lemma scan_dates_drop_trailing (l : list string) (date_str : string) :
  forall i, scan_dates i (drop_trailing_empty l) date_str = scan_dates i l date_str.
Proof.
  induction l as [|x l IH]; intros i; [reflexivity|].
  change (drop_trailing_empty (x :: l))
    with (match drop_trailing_empty l with
          | [] => if is_empty x then [] else [x]
          | _ :: _ => x :: drop_trailing_empty l
          end).
  cbn [scan_dates]. rewrite <- (IH (S i)).
  destruct (drop_trailing_empty l) as [|y t] eqn:E.
  - destruct x as [|c x]; cbn; [reflexivity|].
    by destruct (same_date _ _).
  - reflexivity.
Qed.

(** The scan over rows [i], [i + 1], ... numbered as the rows are. *)
Lemma scan_dates_rows (f : nat -> string) (date_str : string) (n : nat) :
  forall i r,
    scan_dates i (map f (seq i n)) date_str = Some r <->
    (i <= r < i + n)%nat
    /\ normalize_date (f r) = Some date_str
    /\ forall k, (i <= k < r)%nat -> normalize_date (f k) <> Some date_str.
Proof.
  induction n as [|n IH]; intros i r; cbn [seq map scan_dates].
  - split; [discriminate | lia].
  - destruct (same_date (normalize_date (f i)) date_str) eqn:E.
    + apply same_date_iff in E. split.
      * intros [= <-]. split; [lia|]. split; [done|]. lia.
      * intros (Hr & Hm & Hfirst). f_equal.
        destruct (decide (i = r)) as [|Hne]; [done|].
        exfalso. apply (Hfirst i); [lia | done].
    + assert (Hi : normalize_date (f i) <> Some date_str).
      { intros H. apply same_date_iff in H. congruence. }
      rewrite IH. split.
      * intros (Hr & Hm & Hfirst). split; [lia|]. split; [done|].
        intros k Hk. destruct (decide (k = i)) as [->|]; [done|]. apply Hfirst. lia.
      * intros (Hr & Hm & Hfirst). split; [|split; [done|]].
        -- destruct (decide (i = r)) as [->|]; [done | lia].
        -- intros k Hk. apply Hfirst. lia.
Qed.

Lemma scan_dates_rows_none (f : nat -> string) (date_str : string) (n : nat) :
  forall i,
    scan_dates i (map f (seq i n)) date_str = None <->
    forall k, (i <= k < i + n)%nat -> normalize_date (f k) <> Some date_str.
Proof.
  induction n as [|n IH]; intros i; cbn [seq map scan_dates].
  - split; [lia | done].
  - destruct (same_date (normalize_date (f i)) date_str) eqn:E.
    + apply same_date_iff in E. split; [discriminate|].
      intros H. exfalso. apply (H i); [lia | done].
    + assert (Hi : normalize_date (f i) <> Some date_str).
      { intros H. apply same_date_iff in H. congruence. }
      rewrite IH. split; intros H k Hk.
      * destruct (decide (k = i)) as [->|]; [done|]. apply H. lia.
      * apply H. lia.
Qed.

Section SheetFacts.
Variable display : sheet_value -> string.

(** [find_date_row] returns the first matching row of the grid. *)
Lemma find_date_row_Some ws date_str date_col r :
  find_date_row display ws date_str date_col = Some r <->
  (1 <= r <= row_count ws)%nat
  /\ row_matches display ws date_col date_str r
  /\ forall k, (1 <= k < r)%nat -> ~ row_matches display ws date_col date_str k.
Proof.
  unfold find_date_row, col_values. rewrite scan_dates_drop_trailing.
  rewrite (scan_dates_rows (fun r => cell_text display ws r date_col)).
  unfold row_matches. split; intros (H1 & H2 & H3); (split; [lia | by split]).
Qed.

Lemma find_date_row_None ws date_str date_col :
  find_date_row display ws date_str date_col = None <->
  forall k, (1 <= k <= row_count ws)%nat -> ~ row_matches display ws date_col date_str k.
Proof.
  unfold find_date_row, col_values. rewrite scan_dates_drop_trailing.
  rewrite (scan_dates_rows_none (fun r => cell_text display ws r date_col)).
  unfold row_matches. split; intros H k Hk; apply H; lia.
Qed.

(** Two dates cannot be found in one row. *)
Lemma find_date_row_inj ws date_col d1 d2 r :
  find_date_row display ws d1 date_col = Some r ->
  find_date_row display ws d2 date_col = Some r ->
  d1 = d2.
Proof.
  rewrite !find_date_row_Some. unfold row_matches.
  intros (_ & H1 & _) (_ & H2 & _). congruence.
Qed.

(** A column reads the same when none of its cells changed. *)
Lemma col_values_ext ws ws' c :
  row_count ws' = row_count ws ->
  (forall r, cells ws' !! (r, c) = cells ws !! (r, c)) ->
  col_values display ws' c = col_values display ws c.
Proof.
  intros Hn Hc. unfold col_values. rewrite Hn. f_equal.
  apply map_ext. intros r. unfold cell_text. by rewrite Hc.
Qed.
End SheetFacts.

Lemma update_cells_row_count ws batch :
  row_count (update_cells ws batch) = row_count ws.
Proof. reflexivity. Qed.

Lemma update_cells_lookup ws batch k :
  cells (update_cells ws batch) !! k
  = match batch_lookup batch k with
    | Some v => Some v
    | None => cells ws !! k
    end.
Proof.
  unfold update_cells. cbn [cells]. generalize (cells ws) as m.
  induction batch as [|c rest IH]; intros m; [reflexivity|].
  cbn [foldl batch_lookup]. rewrite IH.
  destruct (batch_lookup rest k); [reflexivity|].
  rewrite lookup_insert. by destruct (decide _).
Qed.

Lemma batch_lookup_None batch k :
  (forall c, c ∈ batch -> (cell_row c, cell_col c) <> k) ->
  batch_lookup batch k = None.
Proof.
  induction batch as [|c rest IH]; intros H; [reflexivity|].
  cbn [batch_lookup]. rewrite IH.
  - destruct (decide _) as [E|]; [|reflexivity]. exfalso. eapply H; [left | exact E].
  - intros c' Hc'. apply H. by right.
Qed.

Lemma batch_lookup_in batch k v :
  batch_lookup batch k = Some v ->
  exists c, c ∈ batch /\ (cell_row c, cell_col c) = k.
Proof.
  revert v. induction batch as [|x l IH]; intros v; cbn [batch_lookup]; [discriminate|].
  destruct (batch_lookup l k) as [w|] eqn:El.
  - intros _. destruct (IH w eq_refl) as (c & ? & ?).
    exists c. split; [by right | done].
  - destruct (decide _) as [Ex|]; [|discriminate].
    intros _. exists x. split; [by left | done].
Qed.

Lemma update_cells_lookup_other ws batch k :
  (forall c, c ∈ batch -> (cell_row c, cell_col c) <> k) ->
  cells (update_cells ws batch) !! k = cells ws !! k.
Proof. intros H. by rewrite update_cells_lookup, batch_lookup_None. Qed.

(* --------------------------------------------------------------------- *)
(** ** The batch of a matched record *)
(* --------------------------------------------------------------------- *)

Lemma truthy_col_Some c n : truthy_col c = Some n <-> c = Some n /\ n <> 0%nat.
Proof.
  destruct c as [[|k]|]; cbn; split; intros H; try discriminate H.
  - destruct H as [H1 H2]. by injection H1 as <-.
  - by injection H as <-.
  - destruct H as [H1 _]. by injection H1 as <-.
  - destruct H as [H1 _]. discriminate H1.
Qed.

Lemma truthy_col_None c : truthy_col c = None <-> c = None \/ c = Some 0%nat.
Proof.
  destruct c as [[|k]|]; cbn; split; auto; try discriminate.
  intros [|]; discriminate.
Qed.

Lemma cells_to_update_in m row act c :
  c ∈ cells_to_update m row act ->
  cell_row c = row /\ cell_col c ∈ written_columns m.
Proof.
  unfold cells_to_update, written_columns.
  rewrite !elem_of_app, !elem_of_cons.
  intros [[->| [->|H]] | [H|H]].
  - split; [done|]. cbn. set_solver.
  - split; [done|]. cbn. set_solver.
  - by apply elem_of_nil in H.
  - destruct (truthy_col (duration_column m)) as [dc|]; [|by apply elem_of_nil in H].
    apply list_elem_of_singleton in H as ->. split; [done|]. cbn. set_solver.
  - destruct (truthy_col (notes_column m)) as [nc|]; [|by apply elem_of_nil in H].
    destruct (is_empty (act_name act)); [by apply elem_of_nil in H|].
    apply list_elem_of_singleton in H as ->. split; [done|]. cbn. set_solver.
Qed.

Lemma update_sheet_snoc display m acts act ws :
  update_sheet display m (acts ++ [act]) ws
  = update_sheet_step display m (update_sheet display m acts ws) act.
Proof. unfold update_sheet. by rewrite foldl_app. Qed.

(** C5 (amended). For a record whose date matches a row, at any point of a
    run, one batch is handed to [update_cells]: the distance cell and the
    pace cell always, then the duration cell exactly when the duration
    column is configured (present and non-zero), then the name cell
    exactly when the notes column is configured and the record's name is
    not empty. *)
Theorem update_sheet_batch_composition
    (display : sheet_value -> string) (m : sheet_mapping)
    (acts : list activity_record) (act : activity_record) (ws : worksheet)
    (row : nat) :
  let st := update_sheet display m acts ws in
  find_date_row display (run_sheet st) (act_date act) (date_column m) = Some row ->
  exists duration_part name_part,
    run_batches (update_sheet display m (acts ++ [act]) ws)
    = run_batches st ++
        [[mk_cell row (distance_column m) (VNum (act_distance act));
          mk_cell row (pace_column m) (VStr (act_pace act))]
         ++ duration_part ++ name_part]
    /\ (forall c, duration_column m = Some c -> c <> 0%nat ->
          duration_part = [mk_cell row c (VStr (act_duration act))])
    /\ (duration_column m = None \/ duration_column m = Some 0%nat ->
          duration_part = [])
    /\ (forall c, notes_column m = Some c -> c <> 0%nat ->
          act_name act <> EmptyString ->
          name_part = [mk_cell row c (VStr (act_name act))])
    /\ (notes_column m = None \/ notes_column m = Some 0%nat
        \/ act_name act = EmptyString ->
          name_part = []).
Proof.
  intros st Hrow. rewrite update_sheet_snoc. fold st.
  unfold update_sheet_step. rewrite Hrow. cbn [run_batches].
  unfold cells_to_update.
  eexists _, _. split; [reflexivity|]. repeat split.
  - intros c Hc Hnz.
    assert (H : truthy_col (duration_column m) = Some c) by by apply truthy_col_Some.
    by rewrite H.
  - intros H. apply truthy_col_None in H. by rewrite H.
  - intros c Hc Hnz Hname.
    assert (H : truthy_col (notes_column m) = Some c) by by apply truthy_col_Some.
    rewrite H. destruct (act_name act); [done | reflexivity].
  - intros [H | [H | H]].
    + by rewrite (proj2 (truthy_col_None _) (or_introl H)).
    + by rewrite (proj2 (truthy_col_None _) (or_intror H)).
    + rewrite H. by destruct (truthy_col _).
Qed.

Lemma update_sheet_batch_composition_witness :
  exists duration_part name_part,
    run_batches (update_sheet show_value sample_mapping ([] ++ [named_run]) sample_sheet)
    = [] ++ [[mk_cell 1 5 (VNum 3.1); mk_cell 1 6 (VStr "9:40")]
             ++ duration_part ++ name_part]
    /\ duration_part = [mk_cell 1 7 (VStr "30:00")]
    /\ name_part = [mk_cell 1 8 (VStr "Morning Run")].
Proof.
  destruct (update_sheet_batch_composition show_value sample_mapping [] named_run
              sample_sheet 1) as (dp & np & Hb & Hd & _ & Hn & _).
  - vm_compute. reflexivity.
  - exists dp, np. split; [exact Hb|]. split.
    + apply (Hd 7%nat); [reflexivity | lia].
    + apply (Hn 8%nat); [reflexivity | lia | discriminate].
Defined.

(** The notes column is configured, the record matches row 1, its name is
    empty: the batch has no name cell. *)
Lemma update_sheet_batch_without_name :
  notes_column sample_mapping = Some 8%nat
  /\ find_date_row show_value sample_sheet (act_date unnamed_run)
       (date_column sample_mapping) = Some 1%nat
  /\ run_batches (update_sheet show_value sample_mapping [unnamed_run] sample_sheet)
     = [[mk_cell 1 5 (VNum 6.21); mk_cell 1 6 (VStr "8:02"); mk_cell 1 7 (VStr "50:00")]].
Proof. vm_compute. repeat split; reflexivity. Qed.

(* --------------------------------------------------------------------- *)
(** ** First match wins *)
(* --------------------------------------------------------------------- *)

(** C6. When rows [i < j] of the date column both show the record's date
    and [i] is the first row that does, [find_date_row] returns [i]; the
    record's batch has cells of row [i] only, and every cell of every
    other row, row [j] included, is as it was before the record. *)
Theorem update_sheet_first_match_only
    (display : sheet_value -> string) (m : sheet_mapping)
    (acts : list activity_record) (act : activity_record) (ws : worksheet)
    (i j : nat) :
  let st := update_sheet display m acts ws in
  let st' := update_sheet display m (acts ++ [act]) ws in
  (1 <= i < j)%nat -> (j <= row_count (run_sheet st))%nat ->
  row_matches display (run_sheet st) (date_column m) (act_date act) i ->
  row_matches display (run_sheet st) (date_column m) (act_date act) j ->
  (forall k, (1 <= k < i)%nat ->
     ~ row_matches display (run_sheet st) (date_column m) (act_date act) k) ->
  find_date_row display (run_sheet st) (act_date act) (date_column m) = Some i
  /\ run_batches st' = run_batches st ++ [cells_to_update m i act]
  /\ (forall c, c ∈ cells_to_update m i act -> cell_row c = i)
  /\ (forall r c, r <> i ->
        cells (run_sheet st') !! (r, c) = cells (run_sheet st) !! (r, c))
  /\ (forall c, cells (run_sheet st') !! (j, c) = cells (run_sheet st) !! (j, c)).
Proof.
  intros st st' Hij Hj Hi Hmj Hfirst.
  assert (Hfind : find_date_row display (run_sheet st) (act_date act) (date_column m)
                  = Some i).
  { apply find_date_row_Some. split; [lia | by split]. }
  assert (Hst' : st' = update_sheet_step display m st act)
    by apply update_sheet_snoc.
  assert (Hother : forall r c, r <> i ->
            cells (run_sheet st') !! (r, c) = cells (run_sheet st) !! (r, c)).
  { intros r c Hr. rewrite Hst'. unfold update_sheet_step. rewrite Hfind.
    cbn [run_sheet]. apply update_cells_lookup_other.
    intros cell Hcell [= Hrow _].
    apply cells_to_update_in in Hcell as [Hcr _]. congruence. }
  split; [exact Hfind|]. split; [|split; [|split]].
  - rewrite Hst'. unfold update_sheet_step. by rewrite Hfind.
  - intros c Hc. by apply cells_to_update_in in Hc as [? _].
  - exact Hother.
  - intros c. apply Hother. lia.
Qed.

Lemma update_sheet_first_match_only_witness :
  find_date_row show_value sample_sheet "2024-03-15" 1 = Some 1%nat
  /\ run_batches (update_sheet show_value sample_mapping ([] ++ [named_run]) sample_sheet)
     = [] ++ [cells_to_update sample_mapping 1 named_run]
  /\ (forall c,
        cells (run_sheet (update_sheet show_value sample_mapping ([] ++ [named_run])
                            sample_sheet)) !! (3%nat, c)
        = cells sample_sheet !! (3%nat, c)).
Proof.
  destruct (update_sheet_first_match_only show_value sample_mapping [] named_run
              sample_sheet 1 3) as (Hfind & Hb & _ & _ & Hj).
  - lia.
  - vm_compute. lia.
  - vm_compute. reflexivity.
  - vm_compute. reflexivity.
  - intros k Hk. lia.
  - split; [exact Hfind|]. split; [exact Hb | exact Hj].
Defined.

(* --------------------------------------------------------------------- *)
(** ** What a run writes and what it leaves alone *)
(* --------------------------------------------------------------------- *)

Section RunFacts.
Variable display : sheet_value -> string.
Variable m : sheet_mapping.

Local Abbreviation step := (update_sheet_step display m).
Local Abbreviation run := (update_sheet display m).

Lemma step_unmatched st act :
  find_date_row display (run_sheet st) (act_date act) (date_column m) = None ->
  step st act
  = mk_run (run_sheet st) (run_batches st) (run_updates st)
      (run_skipped st ++ [act_date act]).
Proof. intros H. unfold update_sheet_step. by rewrite H. Qed.

Lemma step_matched st act row :
  find_date_row display (run_sheet st) (act_date act) (date_column m) = Some row ->
  step st act
  = mk_run (update_cells (run_sheet st) (cells_to_update m row act))
      (run_batches st ++ [cells_to_update m row act])
      (S (run_updates st)) (run_skipped st).
Proof. intros H. unfold update_sheet_step. by rewrite H. Qed.

Lemma step_row_count st act :
  row_count (run_sheet (step st act)) = row_count (run_sheet st).
Proof. unfold update_sheet_step. by destruct (find_date_row _ _ _ _). Qed.

(** A step changes a cell only in a written column of the row it found. *)
Lemma step_changes st act r c :
  cells (run_sheet (step st act)) !! (r, c) <> cells (run_sheet st) !! (r, c) ->
  c ∈ written_columns m
  /\ find_date_row display (run_sheet st) (act_date act) (date_column m) = Some r.
Proof.
  unfold update_sheet_step.
  destruct (find_date_row _ _ _ _) as [row|] eqn:E; cbn [run_sheet]; [|done].
  intros H. rewrite update_cells_lookup in H.
  destruct (batch_lookup (cells_to_update m row act) (r, c)) eqn:Eb; [|done].
  destruct (batch_lookup_in _ _ _ Eb) as (cell & Hcell & [= Hr Hc]).
  apply cells_to_update_in in Hcell as [Hcr Hcc]. split; congruence.
Qed.

Lemma run_row_count acts ws :
  row_count (run_sheet (run acts ws)) = row_count ws.
Proof.
  induction acts as [|act acts IH] using rev_ind; [reflexivity|].
  by rewrite update_sheet_snoc, step_row_count.
Qed.

Lemma run_changes acts ws r c :
  cells (run_sheet (run acts ws)) !! (r, c) <> cells ws !! (r, c) ->
  c ∈ written_columns m.
Proof.
  induction acts as [|act acts IH] using rev_ind; [done|].
  rewrite update_sheet_snoc. intros H.
  destruct (decide (cells (run_sheet (step (run acts ws) act)) !! (r, c)
                    = cells (run_sheet (run acts ws)) !! (r, c))) as [E|E].
  - apply IH. by rewrite <- E.
  - by apply step_changes in E as [? _].
Qed.

(** Every batch is the batch of some record of the run, for the row found
    in the sheet as the records before it left it. *)
Lemma run_batches_origin acts ws batch :
  batch ∈ run_batches (run acts ws) ->
  exists pre act post row,
    acts = pre ++ act :: post
    /\ find_date_row display (run_sheet (run pre ws)) (act_date act) (date_column m)
       = Some row
    /\ batch = cells_to_update m row act.
Proof.
  induction acts as [|act acts IH] using rev_ind.
  - intros H. by apply elem_of_nil in H.
  - rewrite update_sheet_snoc. unfold update_sheet_step.
    destruct (find_date_row _ _ _ _) as [row|] eqn:E; cbn [run_batches].
    + rewrite elem_of_app. intros [H | H].
      * destruct (IH H) as (pre & a & post & r & -> & Hr & Hb).
        exists pre, a, (post ++ [act]), r.
        split; [by rewrite <- app_assoc | by split].
      * apply list_elem_of_singleton in H as ->.
        exists acts, act, [], row. by split.
    + intros H. destruct (IH H) as (pre & a & post & r & -> & Hr & Hb).
      exists pre, a, (post ++ [act]), r.
      split; [by rewrite <- app_assoc | by split].
Qed.

(** From here on the date column is none of the written columns. *)
Hypothesis date_column_apart : date_column m ∉ written_columns m.

Lemma run_keeps_date_cells acts ws r :
  cells (run_sheet (run acts ws)) !! (r, date_column m) = cells ws !! (r, date_column m).
Proof.
  destruct (decide (cells (run_sheet (run acts ws)) !! (r, date_column m)
                    = cells ws !! (r, date_column m))) as [E|E]; [done|].
  by apply run_changes in E.
Qed.

Lemma run_keeps_date_column acts ws :
  col_values display (run_sheet (run acts ws)) (date_column m)
  = col_values display ws (date_column m).
Proof.
  apply col_values_ext; [apply run_row_count|].
  intros r. apply run_keeps_date_cells.
Qed.

Lemma run_keeps_matches acts ws date_str :
  find_date_row display (run_sheet (run acts ws)) date_str (date_column m)
  = find_date_row display ws date_str (date_column m).
Proof. unfold find_date_row. by rewrite run_keeps_date_column. Qed.

Lemma run_batches_eq acts ws :
  run_batches (run acts ws) = omap (batch_of display m ws) acts.
Proof.
  induction acts as [|act acts IH] using rev_ind; [reflexivity|].
  rewrite update_sheet_snoc, omap_app.
  change (omap (batch_of display m ws) [act])
    with (match batch_of display m ws act with Some b => [b] | None => [] end).
  unfold update_sheet_step, batch_of at 2. rewrite run_keeps_matches.
  destruct (find_date_row display ws _ _) as [row|]; cbn [run_batches]; rewrite IH.
  - reflexivity.
  - symmetry. apply app_nil_r.
Qed.

Lemma run_skipped_eq acts ws :
  run_skipped (run acts ws)
  = act_date <$> List.filter
      (fun act => bool_decide (find_date_row display ws (act_date act) (date_column m) = None))
      acts.
Proof.
  induction acts as [|act acts IH] using rev_ind; [reflexivity|].
  rewrite update_sheet_snoc, List.filter_app, fmap_app. cbn [List.filter].
  unfold update_sheet_step. rewrite run_keeps_matches.
  destruct (find_date_row display ws _ _) as [row|]; cbn [run_skipped]; rewrite IH.
  - symmetry. apply app_nil_r.
  - reflexivity.
Qed.

(** Records of other dates, processed after the batch of [act] went to
    row [r], leave row [r] alone. *)
Lemma run_later_rows pre act post ws r c :
  find_date_row display ws (act_date act) (date_column m) = Some r ->
  (forall b, b ∈ post -> act_date b <> act_date act) ->
  cells (run_sheet (run (pre ++ act :: post) ws)) !! (r, c)
  = cells (update_cells (run_sheet (run pre ws)) (cells_to_update m r act)) !! (r, c).
Proof.
  intros Hr. induction post as [|b post IH] using rev_ind; intros Hpost.
  - rewrite update_sheet_snoc, (step_matched _ _ r); [done|].
    by rewrite run_keeps_matches.
  - replace (pre ++ act :: post ++ [b]) with ((pre ++ act :: post) ++ [b])
      by by rewrite <- app_assoc.
    rewrite update_sheet_snoc.
    rewrite <- IH by (intros b' Hb'; apply Hpost; set_solver).
    destruct (decide (cells (run_sheet (step (run (pre ++ act :: post) ws) b)) !! (r, c)
                      = cells (run_sheet (run (pre ++ act :: post) ws)) !! (r, c)))
      as [E|E]; [done|].
    apply step_changes in E as [_ E]. rewrite run_keeps_matches in E.
    exfalso. apply (Hpost b); [set_solver|].
    by apply (find_date_row_inj display ws (date_column m) _ _ r).
Qed.
End RunFacts.

(** C10 (amended). In every run, every cell handed to [update_cells] lies
    in one of the written columns and in the row found for the date of the
    record it belongs to; a cell of the sheet that differs after the run
    lies in a written column; a record whose date matches no row changes
    neither the sheet nor the batches and is appended to the skipped list.
    When the date column is none of the written columns, no cell of the
    date column changes, the column reads as before, and every date is
    found in the row it was found in before the run. *)
Theorem update_sheet_frame
    (display : sheet_value -> string) (m : sheet_mapping)
    (acts : list activity_record) (ws : worksheet) :
  let st := update_sheet display m acts ws in
  (forall batch, batch ∈ run_batches st ->
     exists pre act post row,
       acts = pre ++ act :: post
       /\ find_date_row display (run_sheet (update_sheet display m pre ws))
            (act_date act) (date_column m) = Some row
       /\ batch = cells_to_update m row act
       /\ forall c, c ∈ batch -> cell_row c = row /\ cell_col c ∈ written_columns m)
  /\ (forall r c, cells (run_sheet st) !! (r, c) <> cells ws !! (r, c) ->
        c ∈ written_columns m)
  /\ (forall act,
        find_date_row display (run_sheet st) (act_date act) (date_column m) = None ->
        update_sheet display m (acts ++ [act]) ws
        = mk_run (run_sheet st) (run_batches st) (run_updates st)
            (run_skipped st ++ [act_date act]))
  /\ (date_column m ∉ written_columns m ->
        (forall r, cells (run_sheet st) !! (r, date_column m)
                   = cells ws !! (r, date_column m))
        /\ col_values display (run_sheet st) (date_column m)
           = col_values display ws (date_column m)
        /\ (forall date_str,
              find_date_row display (run_sheet st) date_str (date_column m)
              = find_date_row display ws date_str (date_column m))
        /\ run_batches st = omap (batch_of display m ws) acts).
Proof.
  intros st. split; [|split; [|split]].
  - intros batch Hb.
    destruct (run_batches_origin display m acts ws batch Hb)
      as (pre & act & post & row & Hacts & Hrow & ->).
    exists pre, act, post, row. repeat split; try done.
    + by apply cells_to_update_in in H as [? _].
    + by apply cells_to_update_in in H as [_ ?].
  - intros r c. apply run_changes.
  - intros act Hnone. rewrite update_sheet_snoc. by apply step_unmatched.
  - intros Hapart. split; [|split; [|split]].
    + intros r. by apply run_keeps_date_cells.
    + by apply run_keeps_date_column.
    + intros date_str. by apply run_keeps_matches.
    + by apply run_batches_eq.
Qed.

Lemma update_sheet_frame_witness :
  col_values show_value
    (run_sheet (update_sheet show_value sample_mapping [named_run; unnamed_run] sample_sheet))
    (date_column sample_mapping)
  = col_values show_value sample_sheet (date_column sample_mapping).
Proof.
  apply (update_sheet_frame show_value sample_mapping [named_run; unnamed_run] sample_sheet).
  vm_compute. intros H.
  repeat (apply elem_of_cons in H as [H|H]; [discriminate H|]).
  by apply elem_of_nil in H.
Defined.

(** The date column is also the distance column: the matched date cell is
    overwritten, and the date is found nowhere after the run. *)
Lemma update_sheet_writes_date_column :
  let st := update_sheet show_value overlapping_mapping [named_run] one_date_sheet in
  date_column overlapping_mapping = 1%nat
  /\ cells one_date_sheet !! (1%nat, 1%nat) = Some (VStr "2024-03-15")
  /\ cells (run_sheet st) !! (1%nat, 1%nat) = Some (VNum 3.1)
  /\ find_date_row show_value one_date_sheet "2024-03-15" 1 = Some 1%nat
  /\ find_date_row show_value (run_sheet st) "2024-03-15" 1 = None.
Proof. vm_compute. repeat split; reflexivity. Qed.

(* --------------------------------------------------------------------- *)
(** ** The sort of [main] and the last record of a day *)
(* --------------------------------------------------------------------- *)

Lemma date_le_refl x : date_le x x.
Proof. unfold date_le. by destruct (String.leb_total (act_date x) (act_date x)). Qed.

Lemma insert_by_date_perm x l : Permutation (insert_by_date x l) (x :: l).
Proof.
  induction l as [|y l IH]; cbn [insert_by_date]; [reflexivity|].
  destruct (String.leb _ _); [reflexivity|].
  rewrite IH. apply perm_swap.
Qed.

Lemma insert_by_date_sorted x l :
  Sorted date_le l -> Sorted date_le (insert_by_date x l).
Proof.
  induction l as [|y l IH]; cbn [insert_by_date]; intros Hs.
  - by repeat constructor.
  - destruct (String.leb (act_date x) (act_date y)) eqn:E.
    + constructor; [done|]. by constructor.
    + assert (Hyx : date_le y x).
      { unfold date_le. destruct (String.leb_total (act_date x) (act_date y)); congruence. }
      apply Sorted_inv in Hs as [Hs Hhd]. constructor; [by apply IH|].
      destruct l as [|z l]; cbn [insert_by_date]; [by constructor|].
      destruct (String.leb (act_date x) (act_date z)); constructor; [done|].
      by apply HdRel_inv in Hhd.
Qed.

(** Records of one date keep their order: the new record goes in front of
    the first record that is not before it. *)
Lemma insert_by_date_stable d x l :
  List.filter (on_date d) (insert_by_date x l) = List.filter (on_date d) (x :: l).
Proof.
  induction l as [|y l IH]; cbn [insert_by_date]; [reflexivity|].
  destruct (String.leb (act_date x) (act_date y)) eqn:E; [reflexivity|].
  cbn [List.filter] in *. rewrite IH.
  destruct (on_date d x) eqn:Ex, (on_date d y) eqn:Ey; try reflexivity.
  exfalso. unfold on_date in *.
  apply String.eqb_eq in Ex, Ey.
  pose proof (date_le_refl x) as Hr. unfold date_le in Hr. congruence.
Qed.

Lemma sort_by_date_spec parsed :
  Sorted date_le (sort_by_date parsed)
  /\ Permutation (sort_by_date parsed) parsed
  /\ forall d, List.filter (on_date d) (sort_by_date parsed)
               = List.filter (on_date d) parsed.
Proof.
  induction parsed as [|x l (Hs & Hp & Hf)]; cbn [sort_by_date fold_right].
  - split; [constructor|]. by split.
  - fold (sort_by_date l). split; [by apply insert_by_date_sorted|]. split.
    + rewrite insert_by_date_perm. by constructor.
    + intros d. rewrite insert_by_date_stable. cbn [List.filter]. by rewrite Hf.
Qed.

(** What the batch of a record leaves in its row when the written columns
    are pairwise different. *)
Lemma cells_to_update_values m r act :
  NoDup (written_columns m) ->
  batch_lookup (cells_to_update m r act) (r, distance_column m)
    = Some (VNum (act_distance act))
  /\ batch_lookup (cells_to_update m r act) (r, pace_column m)
    = Some (VStr (act_pace act))
  /\ (forall dc, truthy_col (duration_column m) = Some dc ->
        batch_lookup (cells_to_update m r act) (r, dc) = Some (VStr (act_duration act)))
  /\ (forall nc, truthy_col (notes_column m) = Some nc ->
        batch_lookup (cells_to_update m r act) (r, nc)
        = if is_empty (act_name act) then None else Some (VStr (act_name act))).
Proof.
  unfold written_columns, cells_to_update.
  generalize (distance_column m) (pace_column m) (truthy_col (duration_column m))
    (truthy_col (notes_column m)) (act_name act).
  intros d p odc onc name Hnd.
  assert (Hne : forall a b : nat, a <> b -> (r, a) <> (r, b)) by congruence.
  destruct odc as [dc|], onc as [nc|]; simpl in Hnd;
    repeat (apply NoDup_cons in Hnd as [? Hnd]);
    repeat match goal with
           | H : _ ∉ _ :: _ |- _ => apply not_elem_of_cons in H as [? H]
           end;
    (repeat split; [| |intros ? [= <-]|intros ? [= <-]]);
    destruct (is_empty name);
    cbn [batch_lookup app cell_row cell_col cell_value];
    repeat (case_decide; [try congruence | try congruence]);
    reflexivity.
Qed.




(* --------------------------------------------------------------------- *)
(** ** Digits and zero padding *)
(* --------------------------------------------------------------------- *)

Lemma is_digit_inv (c : ascii) :
  is_digit c = true ->
  0 <= digit_val c <= 9 /\ digit_char (digit_val c) = c.
Proof.
  destruct c as [[] [] [] [] [] [] [] []]; vm_compute; intros H;
    first [discriminate H | (split; [split; discriminate | reflexivity])].
Qed.

(** A digit character is one of the ten. *)
Lemma is_digit_cases (c : ascii) :
  is_digit c = true ->
  (c = "0" \/ c = "1" \/ c = "2" \/ c = "3" \/ c = "4"
   \/ c = "5" \/ c = "6" \/ c = "7" \/ c = "8" \/ c = "9")%char.
Proof.
  destruct c as [[] [] [] [] [] [] [] []]; vm_compute; intros H;
    first [discriminate H | tauto].
Qed.

Ltac digit_cases H :=
  apply is_digit_cases in H;
  destruct H as [H|[H|[H|[H|[H|[H|[H|[H|[H|H]]]]]]]]]; subst.

Lemma below_cases (P : Z -> bool) (bound : Z) :
  forallb (fun k => P (Z.of_nat k)) (seq 0 (Z.to_nat bound)) = true ->
  forall n, 0 <= n < bound -> P n = true.
Proof.
  intros H n Hn. rewrite forallb_forall in H.
  rewrite <- (Z2Nat.id n) by lia. apply H. apply in_seq. lia.
Qed.

Lemma zfill_2 (n : Z) : 0 <= n <= 99 -> zfill 2 n = two_digit_string n.
Proof.
  intros Hn. apply String.eqb_eq.
  apply (below_cases (fun k => String.eqb (zfill 2 k) (two_digit_string k)) 100);
    [vm_compute; reflexivity | lia].
Qed.

Lemma zfill_4 (n : Z) : 0 <= n <= 9999 -> zfill 4 n = four_digit_string n.
Proof.
  intros Hn. apply String.eqb_eq.
  apply (below_cases (fun k => String.eqb (zfill 4 k) (four_digit_string k)) 10000);
    [vm_compute; reflexivity | lia].
Qed.

(* --------------------------------------------------------------------- *)
(** ** The pace label *)
(* --------------------------------------------------------------------- *)

Lemma Qltb_lt (x y : Q) : Qltb x y = true <-> (x < y)%Q.
Proof.
  unfold Qltb. rewrite negb_true_iff, <- not_true_iff_false, Qle_bool_iff.
  split; [apply Qnot_le_lt | apply Qlt_not_le].
Qed.

Lemma int_of_float_nonneg (x : Q) : (0 <= x)%Q -> int_of_float x = Qfloor x.
Proof.
  intros H. unfold int_of_float.
  by rewrite (proj2 (Qle_bool_iff 0 x) H).
Qed.

Lemma Qfloor_range (x : Q) (n : Z) :
  (0 <= x)%Q -> (x < inject_Z n)%Q -> 0 <= Qfloor x < n.
Proof.
  intros H0 Hn. split.
  - change 0 with (Qfloor 0). by apply Qfloor_resp_le.
  - rewrite Zlt_Qlt. eapply Qle_lt_trans; [apply Qfloor_le | exact Hn].
Qed.

(** Minutes and seconds of a non-negative pace. *)
Lemma pace_components (p : Q) :
  (0 <= p)%Q ->
  0 <= int_of_float (floordiv p 60)
  /\ 0 <= int_of_float (pymod p 60) <= 59.
Proof.
  intros Hp.
  assert (Hq : (0 <= p / 60)%Q).
  { apply Qle_shift_div_l; [reflexivity | lra]. }
  pose proof (Qfloor_le (p / 60)) as Hlo.
  pose proof (Qlt_floor (p / 60)) as Hhi.
  assert (Hf : 0 <= Qfloor (p / 60)).
  { change 0 with (Qfloor 0). by apply Qfloor_resp_le. }
  rewrite inject_Z_plus in Hhi. change (inject_Z 1) with 1%Q in Hhi.
  assert (Hpq : (p == 60 * (p / 60))%Q) by (field; discriminate).
  unfold floordiv, pymod. split.
  - rewrite int_of_float_nonneg, Qfloor_Z; [done|].
    change 0%Q with (inject_Z 0). rewrite <- Zle_Qle. exact Hf.
  - set (f := inject_Z (Qfloor (p / 60))) in *.
    assert (H0 : (0 <= p - 60 * f)%Q) by lra.
    assert (H60 : (p - 60 * f < inject_Z 60)%Q) by (change (inject_Z 60) with 60%Q; lra).
    rewrite int_of_float_nonneg by exact H0.
    pose proof (Qfloor_range _ _ H0 H60). lia.
Qed.

Lemma scaled_distance_sign (d k : Q) :
  (0 < k)%Q -> (0 <= d)%Q ->
  ((d == 0)%Q -> Qltb 0 (d / k) = false)
  /\ (~ (d == 0)%Q -> Qltb 0 (d / k) = true /\ Qeq_bool (d / k) 0 = false).
Proof.
  intros Hk Hd. split.
  - intros H0. apply not_true_iff_false. rewrite Qltb_lt, H0.
    unfold Qdiv. rewrite Qmult_0_l. apply Qlt_irrefl.
  - intros Hne. assert (Hpos : (0 < d)%Q).
    { apply Qle_lteq in Hd as [|E]; [done|]. exfalso. apply Hne. by symmetry. }
    assert (Hdk : (0 < d / k)%Q) by (apply Qlt_shift_div_l; [done | lra]).
    split; [by apply Qltb_lt|].
    apply not_true_iff_false. rewrite Qeq_bool_iff. intros E. rewrite E in Hdk.
    by apply Qlt_irrefl in Hdk.
Qed.

(** [fromisoformat] raises nothing but [ValueError]. *)
Lemma fromisoformat_raises (s : string) (e : exn) :
  fromisoformat s = Raise e -> exists msg, e = ValueError msg.
Proof.
  unfold fromisoformat. destruct (iso_date s) as [[d rest]|]; [|intros [= <-]; eauto].
  destruct (negb (valid_date d)); [intros [= <-]; eauto|].
  destruct rest as [|c tstr]; [discriminate|].
  destruct (iso_time tstr); [discriminate | intros [= <-]; eauto].
Qed.


(* --------------------------------------------------------------------- *)
(** ** The order of the date formats *)
(* --------------------------------------------------------------------- *)

Lemma compile_iso :
  compile_format "%Y-%m-%d" = Some [DY; DLit "-"; Dm; DLit "-"; Dd].
Proof. reflexivity. Qed.

Lemma compile_mdY :
  compile_format "%m/%d/%Y" = Some [Dm; DLit "/"; Dd; DLit "/"; DY].
Proof. reflexivity. Qed.

Lemma compile_mdy :
  compile_format "%m/%d/%y" = Some [Dm; DLit "/"; Dd; DLit "/"; Dy].
Proof. reflexivity. Qed.

Lemma compile_dmY :
  compile_format "%d/%m/%Y" = Some [Dd; DLit "/"; Dm; DLit "/"; DY].
Proof. reflexivity. Qed.

Lemma compile_BdY :
  compile_format "%B %d, %Y" = Some [DB; DSpace; Dd; DLit ","; DSpace; DY].
Proof. reflexivity. Qed.

Lemma compile_bdY :
  compile_format "%b %d, %Y" = Some [Db; DSpace; Dd; DLit ","; DSpace; DY].
Proof. reflexivity. Qed.

Lemma re_lit_slash_digit (b : ascii) (r : string) :
  is_digit b = true -> re_lit "/" (String b r) = [].
Proof. intros H. digit_cases H; reflexivity. Qed.

Lemma re_Y_inv (s : string) (v : Z) (r : string) (l : list (Z * string)) :
  re_Y s = (v, r) :: l ->
  exists a b c d,
    s = String a (String b (String c (String d r)))
    /\ is_digit a = true /\ is_digit b = true /\ is_digit c = true /\ is_digit d = true
    /\ v = 1000 * digit_val a + 100 * digit_val b + 10 * digit_val c + digit_val d
    /\ l = [].
Proof.
  unfold re_Y. destruct s as [|a [|b [|c [|d r']]]]; try discriminate.
  destruct (is_digit a) eqn:Ea, (is_digit b) eqn:Eb, (is_digit c) eqn:Ec,
           (is_digit d) eqn:Ed; try discriminate.
  intros [= <- <- <-]. exists a, b, c, d. repeat split; done.
Qed.

(** A month, or a day, followed by a slash cannot be read where the second
    and the third character are digits. *)
Lemma month_slash_digits a b c r ds acc :
  is_digit b = true -> is_digit c = true ->
  re_match (Dm :: DLit "/" :: ds) (String a (String b (String c r))) acc = [].
Proof.
  intros Hb Hc. cbn [re_match re_step]. unfold re_m, two_chars, one_char, with_field.
  repeat match goal with
         | |- context [if ?x then _ else _] => destruct x
         end;
    cbn [app map flat_map fst snd re_match re_step];
    rewrite ?(re_lit_slash_digit b), ?(re_lit_slash_digit c) by done;
    reflexivity.
Qed.

Lemma day_slash_digits a b c r ds acc :
  is_digit b = true -> is_digit c = true ->
  re_match (Dd :: DLit "/" :: ds) (String a (String b (String c r))) acc = [].
Proof.
  intros Hb Hc. cbn [re_match re_step]. unfold re_d, two_chars, one_char, with_field.
  repeat match goal with
         | |- context [if ?x then _ else _] => destruct x
         end;
    cbn [app map flat_map fst snd re_match re_step];
    rewrite ?(re_lit_slash_digit b), ?(re_lit_slash_digit c) by done;
    reflexivity.
Qed.

(** A string the month-first pattern accepts is not an ISO date. *)
Lemma iso_fails_on_month_first (t : string) (d : ymd) :
  strptime t "%m/%d/%Y" = Ok d ->
  strptime t "%Y-%m-%d" = Raise (ValueError "time data does not match format").
Proof.
  unfold strptime. rewrite compile_mdY, compile_iso. intros H.
  cbn [re_match re_step]. unfold with_field.
  destruct (re_Y t) as [|[v r] l] eqn:EY; [reflexivity|].
  apply re_Y_inv in EY as (a & b & c & d' & -> & Ha & Hb & Hc & Hd & _ & _).
  rewrite month_slash_digits in H by done. discriminate H.
Qed.

(** C3. A string that parses under the month-first slash pattern and under
    the day-first slash pattern is not an ISO date, so the first pattern of
    the list fails on it, the second, month-first, succeeds, and
    [normalize_date] returns the month-first reading in the form
    YYYY-MM-DD. *)
Theorem normalize_date_month_first (val : string) (month_first day_first : ymd) :
  strptime (strip val) "%m/%d/%Y" = Ok month_first ->
  strptime (strip val) "%d/%m/%Y" = Ok day_first ->
  formats = ["%Y-%m-%d"; "%m/%d/%Y"; "%m/%d/%y"; "%d/%m/%Y";
             "%B %d, %Y"; "%b %d, %Y"]%string
  /\ (exists e, strptime (strip val) "%Y-%m-%d" = Raise e)
  /\ normalize_date val = Some (strftime month_first "%Y-%m-%d").
Proof.
  intros Hm _. split; [reflexivity|].
  pose proof (iso_fails_on_month_first _ _ Hm) as Hiso.
  split; [eauto|].
  destruct val as [|c v].
  { vm_compute in Hm. discriminate Hm. }
  unfold normalize_date, formats. cbn [is_empty try_formats].
  by rewrite Hiso, Hm.
Qed.

Lemma normalize_date_month_first_witness :
  normalize_date "03/04/2024" = Some "2024-03-04"%string.
Proof.
  apply (normalize_date_month_first "03/04/2024" (mk_ymd 2024 3 4) (mk_ymd 2024 4 3)).
  - vm_compute. reflexivity.
  - vm_compute. reflexivity.
Defined.

(* --------------------------------------------------------------------- *)
(** ** Canonical dates *)
(* --------------------------------------------------------------------- *)

Lemma is_canonical_inv (s : string) :
  is_canonical s = true ->
  exists y1 y2 y3 y4 m1 m2 d1 d2,
    s = canonical_string y1 y2 y3 y4 m1 m2 d1 d2
    /\ is_digit y1 = true /\ is_digit y2 = true /\ is_digit y3 = true
    /\ is_digit y4 = true /\ is_digit m1 = true /\ is_digit m2 = true
    /\ is_digit d1 = true /\ is_digit d2 = true.
Proof.
  destruct s as [|y1 [|y2 [|y3 [|y4 [|h1 [|m1 [|m2 [|h2 [|d1 [|d2 [|x s]]]]]]]]]]];
    try discriminate.
  cbn [is_canonical]. rewrite !andb_true_iff, !Ascii.eqb_eq.
  intros [[[[[[[[[? ?] ?] ?] ->] ?] ?] ->] ?] ?].
  exists y1, y2, y3, y4, m1, m2, d1, d2. repeat split; done.
Qed.

Lemma digit_not_space (c : ascii) : is_digit c = true -> is_space c = false.
Proof. intros H. digit_cases H; reflexivity. Qed.

Lemma strip_canonical y1 y2 y3 y4 m1 m2 d1 d2 :
  is_digit y1 = true -> is_digit y2 = true -> is_digit y3 = true ->
  is_digit y4 = true -> is_digit m1 = true -> is_digit m2 = true ->
  is_digit d1 = true -> is_digit d2 = true ->
  strip (canonical_string y1 y2 y3 y4 m1 m2 d1 d2)
  = canonical_string y1 y2 y3 y4 m1 m2 d1 d2.
Proof.
  intros. unfold strip, canonical_string. cbn [lstrip].
  rewrite (digit_not_space y1) by done. cbn [rstrip].
  rewrite (digit_not_space y1), (digit_not_space y2), (digit_not_space y3),
    (digit_not_space y4), (digit_not_space m1), (digit_not_space m2),
    (digit_not_space d1), (digit_not_space d2) by done.
  reflexivity.
Qed.

Lemma re_Y_digits a b c d r :
  is_digit a = true -> is_digit b = true -> is_digit c = true -> is_digit d = true ->
  re_Y (String a (String b (String c (String d r))))
  = [(1000 * digit_val a + 100 * digit_val b + 10 * digit_val c + digit_val d, r)].
Proof. intros Ha Hb Hc Hd. unfold re_Y. by rewrite Ha, Hb, Hc, Hd. Qed.

Lemma zfill_4_digits a b c d :
  is_digit a = true -> is_digit b = true -> is_digit c = true -> is_digit d = true ->
  zfill 4 (1000 * digit_val a + 100 * digit_val b + 10 * digit_val c + digit_val d)
  = String a (String b (String c (String d EmptyString))).
Proof.
  intros Ha Hb Hc Hd.
  apply is_digit_inv in Ha as [Ha Ea], Hb as [Hb Eb], Hc as [Hc Ec], Hd as [Hd Ed].
  set (x := digit_val a) in *. set (y := digit_val b) in *.
  set (z := digit_val c) in *. set (w := digit_val d) in *.
  rewrite zfill_4 by lia. unfold four_digit_string, two_digit_string.
  replace ((1000 * x + 100 * y + 10 * z + w) / 1000) with x
    by (apply Z.div_unique with (100 * y + 10 * z + w); lia).
  replace ((1000 * x + 100 * y + 10 * z + w) / 100 mod 10) with y.
  2:{ replace ((1000 * x + 100 * y + 10 * z + w) / 100) with (10 * x + y)
        by (apply Z.div_unique with (10 * z + w); lia).
      apply Z.mod_unique with x; lia. }
  replace ((1000 * x + 100 * y + 10 * z + w) mod 100) with (10 * z + w)
    by (apply Z.mod_unique with (10 * x + y); lia).
  replace ((10 * z + w) / 10) with z by (apply Z.div_unique with w; lia).
  replace ((10 * z + w) mod 10) with w by (apply Z.mod_unique with z; lia).
  by rewrite Ea, Eb, Ec, Ed.
Qed.

Lemma zfill_2_digits a b :
  is_digit a = true -> is_digit b = true ->
  zfill 2 (10 * digit_val a + digit_val b) = String a (String b EmptyString).
Proof.
  intros Ha Hb. apply is_digit_inv in Ha as [Ha Ea], Hb as [Hb Eb].
  set (x := digit_val a) in *. set (y := digit_val b) in *.
  rewrite zfill_2 by lia. unfold two_digit_string.
  replace ((10 * x + y) / 10) with x by (apply Z.div_unique with y; lia).
  replace ((10 * x + y) mod 10) with y by (apply Z.mod_unique with x; lia).
  by rewrite Ea, Eb.
Qed.

Lemma re_match_hyphen ds r acc :
  re_match (DLit "-" :: ds) (String "-" r) acc = re_match ds r acc.
Proof. cbn [re_match re_step]. cbn. apply app_nil_r. Qed.

Lemma re_lit_hyphen_digit (b : ascii) (r : string) :
  is_digit b = true -> re_lit "-" (String b r) = [].
Proof. intros H. digit_cases H; reflexivity. Qed.

Lemma re_match_hyphen_digit ds b r acc :
  is_digit b = true -> re_match (DLit "-" :: ds) (String b r) acc = [].
Proof. intros H. cbn [re_match re_step]. by rewrite re_lit_hyphen_digit. Qed.

(** The ways [%m] reads two digits: as a month 01 to 12, or its first
    digit alone. *)
Lemma re_m_two_digits m1 m2 rest :
  is_digit m1 = true -> is_digit m2 = true ->
  re_m (String m1 (String m2 rest))
  = (if (1 <=? 10 * digit_val m1 + digit_val m2) && (10 * digit_val m1 + digit_val m2 <=? 12)
     then [(10 * digit_val m1 + digit_val m2, rest)] else [])
    ++ (if in_range "1" "9" m1 then [(digit_val m1, String m2 rest)] else []).
Proof.
  intros H1 H2. digit_cases H1; digit_cases H2; vm_compute; reflexivity.
Qed.

(** The month of an ISO date: two digits, 01 to 12, then the hyphen. *)
Lemma iso_month m1 m2 rest ds acc :
  is_digit m1 = true -> is_digit m2 = true ->
  re_match (Dm :: DLit "-" :: ds) (String m1 (String m2 (String "-" rest))) acc
  = if (1 <=? 10 * digit_val m1 + digit_val m2) && (10 * digit_val m1 + digit_val m2 <=? 12)
    then re_match ds rest (set_month (10 * digit_val m1 + digit_val m2) acc)
    else [].
Proof.
  intros H1 H2.
  change (re_match (Dm :: DLit "-" :: ds) ?t acc)
    with (flat_map (fun ar => re_match (DLit "-" :: ds) (snd ar) (fst ar))
            (with_field set_month acc (re_m t))).
  rewrite re_m_two_digits by done. unfold with_field.
  rewrite map_app, flat_map_app.
  destruct (_ && _), (in_range "1" "9" m1);
    cbn [map flat_map fst snd app]; rewrite ?re_match_hyphen, ?app_nil_r;
    rewrite ?re_match_hyphen_digit, ?app_nil_r by done; reflexivity.
Qed.

(** The day of an ISO date: when the match ends the string, the day is the
    number its two digits spell. *)
Lemma iso_day d1 d2 acc :
  is_digit d1 = true -> is_digit d2 = true ->
  match re_match [Dd] (String d1 (String d2 EmptyString)) acc with
  | [] => True
  | (f, rest) :: _ =>
      if is_empty rest then f = set_day (10 * digit_val d1 + digit_val d2) acc else True
  end.
Proof.
  intros H1 H2. digit_cases H1; digit_cases H2; vm_compute;
    first [exact I | reflexivity].
Qed.

Lemma names_digit a r :
  is_digit a = true ->
  re_names full_months (String a r) = [] /\ re_names abbr_months (String a r) = [].
Proof. intros H. digit_cases H; split; reflexivity. Qed.

Section Canonical.
Variables y1 y2 y3 y4 m1 m2 d1 d2 : ascii.
Hypothesis Hy1 : is_digit y1 = true.
Hypothesis Hy2 : is_digit y2 = true.
Hypothesis Hy3 : is_digit y3 = true.
Hypothesis Hy4 : is_digit y4 = true.
Hypothesis Hm1 : is_digit m1 = true.
Hypothesis Hm2 : is_digit m2 = true.
Hypothesis Hd1 : is_digit d1 = true.
Hypothesis Hd2 : is_digit d2 = true.

Local Abbreviation s := (canonical_string y1 y2 y3 y4 m1 m2 d1 d2).

(** When the ISO pattern accepts a canonical string, printing the date
  gives the string back. *)
Lemma strptime_iso_canonical (d : ymd) :
strptime s "%Y-%m-%d" = Ok d -> strftime d "%Y-%m-%d" = s.
Proof.
unfold strptime. rewrite compile_iso. unfold canonical_string.
change (re_match [DY; DLit "-"; Dm; DLit "-"; Dd] ?t ?acc)
  with (flat_map (fun ar => re_match [DLit "-"; Dm; DLit "-"; Dd] (snd ar) (fst ar))
          (with_field set_year acc (re_Y t))).
rewrite re_Y_digits by done. cbn [with_field map flat_map fst snd].
rewrite app_nil_r, re_match_hyphen, iso_month by done.
destruct (_ && _); [|discriminate].
match goal with
| |- context [re_match [Dd] _ ?acc] => pose proof (iso_day d1 d2 acc Hd1 Hd2) as Hday
end.
destruct (re_match [Dd] _ _) as [|[f rest] l]; [discriminate|].
destruct (is_empty rest); [|discriminate]. subst f.
destruct (valid_date _); [|discriminate]. intros [= <-].
unfold strftime. rewrite compile_iso.
cbn [fold_right render year month day set_year set_month set_day default_fields].
rewrite zfill_4_digits, !zfill_2_digits by done. reflexivity.
Qed.

Lemma strptime_others_canonical (fmt : string) :
fmt ∈ ["%m/%d/%Y"; "%m/%d/%y"; "%d/%m/%Y"; "%B %d, %Y"; "%b %d, %Y"]%string ->
strptime s fmt = Raise (ValueError "time data does not match format").
Proof.
rewrite !elem_of_cons. unfold strptime, canonical_string.
intros [-> | [-> | [-> | [-> | [-> | H]]]]].
- by rewrite compile_mdY, month_slash_digits.
- by rewrite compile_mdy, month_slash_digits.
- by rewrite compile_dmY, day_slash_digits.
- rewrite compile_BdY. cbn [re_match re_step].
  by rewrite (proj1 (names_digit y1 _ Hy1)).
- rewrite compile_bdY. cbn [re_match re_step].
  by rewrite (proj2 (names_digit y1 _ Hy1)).
- by apply elem_of_nil in H.
Qed.

Lemma normalize_date_canonical_string : normalize_date s = Some s.
Proof.
unfold normalize_date. change (is_empty s) with false. cbv iota.
unfold formats. cbn [try_formats]. rewrite strip_canonical by done.
destruct (strptime s "%Y-%m-%d") as [d|e] eqn:E.
- by rewrite (strptime_iso_canonical d E).
- rewrite !strptime_others_canonical by set_solver. reflexivity.
Qed.
End Canonical.



(* --------------------------------------------------------------------- *)
(** ** More on the token *)
(* --------------------------------------------------------------------- *)

(** X1. A refresh the endpoint answers with an error status raises
    [HTTPError] with that status after the post; the config is as it was
    and nothing is saved. *)
Theorem ensure_strava_token_http_error
    (post : string -> list (string * string) -> http_response token_response)
    (now : Q) (cfg : config) :
  let resp := post token_url (refresh_form (strava cfg)) in
  ~ (60 < inject_Z (expires_at cfg) - now)%Q ->
  (400 <= status resp < 600)%nat ->
  ensure_strava_token post now cfg
  = (Raise (HTTPError (status resp)), cfg,
     [Printed "   Refreshing Strava access token...";
      Posted token_url (refresh_form (strava cfg))]).
Proof.
  intros resp Hstale Hstatus. unfold ensure_strava_token. fold (expires_at cfg).
  destruct (Qltb now (inject_Z (expires_at cfg - 60))) eqn:E.
  { exfalso. apply Hstale. by apply fresh_iff. }
  fold resp. unfold raise_for_status.
  destruct Hstatus as [H1 H2].
  apply Nat.leb_le in H1. apply Nat.ltb_lt in H2. by rewrite H1, H2.
Qed.

Lemma ensure_strava_token_http_error_witness :
  ensure_strava_token failing_endpoint 1000 (sample_config 1030)
  = (Raise (HTTPError 401), sample_config 1030,
     [Printed "   Refreshing Strava access token...";
      Posted token_url (refresh_form (strava (sample_config 1030)))]).
Proof.
  apply (ensure_strava_token_http_error failing_endpoint 1000 (sample_config 1030)).
  - vm_compute. discriminate.
  - vm_compute. lia.
Defined.

(** The token a call returns is the access token of the config it leaves. *)
Lemma ensure_strava_token_returns_config_token post now cfg tok cfg' evs :
  ensure_strava_token post now cfg = (Ok tok, cfg', evs) ->
  access_token (strava cfg') = tok.
Proof.
  unfold ensure_strava_token.
  destruct (Qltb _ _); [by intros [= <- <- _]|].
  destruct (raise_for_status _); [|discriminate].
  by intros [= <- <- _].
Qed.

(** X2. Once a call has returned a token, every later call made while the
    config it left has more than 60 seconds to go returns that same token,
    whatever the endpoint would answer, with no event and the config
    unchanged. *)
Theorem ensure_strava_token_again
    (post post' : string -> list (string * string) -> http_response token_response)
    (now now' : Q) (cfg cfg' : config) (tok : string) (evs : list event) :
  ensure_strava_token post now cfg = (Ok tok, cfg', evs) ->
  (60 < inject_Z (expires_at cfg') - now')%Q ->
  ensure_strava_token post' now' cfg' = (Ok tok, cfg', []).
Proof.
  intros Hfirst Hfresh.
  apply ensure_strava_token_returns_config_token in Hfirst as <-.
  unfold ensure_strava_token. fold (expires_at cfg').
  by rewrite (proj2 (fresh_iff _ _) Hfresh).
Qed.

Lemma ensure_strava_token_again_witness :
  ensure_strava_token failing_endpoint 5000 (set_tokens (sample_config 1030)
                                               (mk_tokens "renewed" "refresh-1" 9999))
  = (Ok "renewed"%string,
     set_tokens (sample_config 1030) (mk_tokens "renewed" "refresh-1" 9999), []).
Proof.
  apply (ensure_strava_token_again sample_endpoint failing_endpoint 1000 5000
           (sample_config 1030) _ _
           [Printed "   Refreshing Strava access token...";
            Posted token_url (refresh_form (strava (sample_config 1030)));
            Saved (set_tokens (sample_config 1030) (mk_tokens "renewed" "refresh-1" 9999))]).
  - reflexivity.
  - vm_compute. reflexivity.
Defined.

(** X3. Whatever a call does, it changes nothing of the config but the
    three token fields: the client id and secret, the Google settings, the
    units and the sheet mapping are as they were; and what it saves is the
    config it leaves. *)
Theorem ensure_strava_token_keeps_settings
    (post : string -> list (string * string) -> http_response token_response)
    (now : Q) (cfg : config) :
  let out := ensure_strava_token post now cfg in
  let cfg' := snd (fst out) in
  client_id (strava cfg') = client_id (strava cfg)
  /\ client_secret (strava cfg') = client_secret (strava cfg)
  /\ service_account_json cfg' = service_account_json cfg
  /\ spreadsheet_id cfg' = spreadsheet_id cfg
  /\ units cfg' = units cfg
  /\ mapping cfg' = mapping cfg
  /\ forall saved, Saved saved ∈ snd out -> saved = cfg'.
Proof.
  unfold ensure_strava_token.
  destruct (Qltb _ _); cbn.
  { repeat split. intros saved H. by apply elem_of_nil in H. }
  destruct (raise_for_status _) as [tokens|e]; cbn; repeat split.
  - intros saved H. rewrite !elem_of_cons in H.
    destruct H as [H|[H|[H|H]]]; try discriminate H.
    + by injection H.
    + by apply elem_of_nil in H.
  - intros saved H. rewrite !elem_of_cons in H.
    destruct H as [H|[H|H]]; try discriminate H. by apply elem_of_nil in H.
Qed.

(* --------------------------------------------------------------------- *)
(** ** The first authorization *)
(* --------------------------------------------------------------------- *)

(** X4. Without a code, or with an empty one, [strava_initial_auth] exits
    with status 1: nothing is posted, nothing is saved, the config is as
    it was. With a code, an error status of the endpoint raises
    [HTTPError] after the post and nothing is saved. *)
Theorem strava_initial_auth_failures
    (post : string -> list (string * string) -> http_response token_response)
    (cfg : config) :
  strava_initial_auth post None cfg = (Exited 1, cfg, [])
  /\ strava_initial_auth post (Some EmptyString) cfg = (Exited 1, cfg, [])
  /\ forall c rest,
       let code := String c rest in
       let resp := post token_url (authorization_form (strava cfg) code) in
       (400 <= status resp < 600)%nat ->
       strava_initial_auth post (Some code) cfg
       = (Raised (HTTPError (status resp)), cfg,
          [Posted token_url (authorization_form (strava cfg) code)]).
Proof.
  split; [reflexivity|]. split; [reflexivity|].
  intros c rest code resp [H1 H2]. subst resp code.
  unfold strava_initial_auth. cbv zeta. unfold raise_for_status.
  apply Nat.leb_le in H1. apply Nat.ltb_lt in H2. by rewrite H1, H2.
Qed.

(** X5. With a code the endpoint accepts, the code is posted with the
    client id and secret under the grant [authorization_code], the three
    token fields of the config become those of the answer, the config is
    saved last, and [ensure_strava_token], called while the new token has
    more than 60 seconds to go, returns the new access token without any
    event. *)
Theorem strava_initial_auth_then_token
    (post post' : string -> list (string * string) -> http_response token_response)
    (cfg : config) (c : ascii) (rest : string) (now : Q) :
  let code := String c rest in
  let form := authorization_form (strava cfg) code in
  let tokens := json (post token_url form) in
  (status (post token_url form) < 400 \/ 600 <= status (post token_url form))%nat ->
  (60 < inject_Z (tr_expires_at tokens) - now)%Q ->
  let cfg' := set_tokens cfg tokens in
  strava_initial_auth post (Some code) cfg
    = (Returned tt, cfg', [Posted token_url form; Saved cfg'])
  /\ form = [("client_id", client_id (strava cfg));
             ("client_secret", client_secret (strava cfg));
             ("code", code); ("grant_type", "authorization_code")]%string
  /\ ensure_strava_token post' now cfg' = (Ok (tr_access_token tokens), cfg', []).
Proof.
  intros code form tokens Hok Hfresh cfg'. subst cfg' tokens form code.
  split; [|split; [reflexivity|]].
  - unfold strava_initial_auth. cbv zeta.
    by rewrite (raise_for_status_ok _ Hok).
  - unfold ensure_strava_token.
    match goal with
    | |- context [Qltb now ?e] =>
        assert (E : Qltb now e = true) by (apply fresh_iff; exact Hfresh)
    end.
    by rewrite E.
Qed.

Lemma strava_initial_auth_then_token_witness :
  strava_initial_auth sample_endpoint (Some "abc"%string) (sample_config 0)
  = (Returned tt,
     set_tokens (sample_config 0) (mk_tokens "renewed" "refresh-1" 9999),
     [Posted token_url (authorization_form (strava (sample_config 0)) "abc");
      Saved (set_tokens (sample_config 0) (mk_tokens "renewed" "refresh-1" 9999))]).
Proof.
  apply (strava_initial_auth_then_token sample_endpoint failing_endpoint
           (sample_config 0) "a" "bc" 5000).
  - left. vm_compute. lia.
  - vm_compute. reflexivity.
Defined.

(* --------------------------------------------------------------------- *)
(** ** More on pagination *)
(* --------------------------------------------------------------------- *)

Section Loop.
Variable get : activities_request -> http_response (list raw_activity).
Variable token : string.
Variable after : Z.

(** One iteration on an answer with at least [per_page] items. *)
Lemma fetch_loop_full_page fuel page acc sent batch :
  raise_for_status (get (request_page token after page)) = Ok batch ->
  (per_page <= length batch)%nat ->
  fetch_loop (S fuel) get token after page acc sent
  = fetch_loop fuel get token after (S page) (acc ++ batch)
      (sent ++ [request_page token after page]).
Proof.
  intros Hget Hlen. cbn [fetch_loop]. fold (request_page token after page).
  rewrite Hget. destruct batch as [|a batch]; [cbn in Hlen; unfold per_page in Hlen; lia|].
  apply Nat.ltb_ge in Hlen. by rewrite Hlen.
Qed.

(** The requests of a loop that ends are those for consecutive pages. *)
Lemma fetch_loop_requests fuel :
  forall page acc sent r sent',
    fetch_loop fuel get token after page acc sent = Some (r, sent') ->
    exists n, (1 <= n <= fuel)%nat
              /\ sent' = sent ++ map (request_page token after) (seq page n).
Proof.
  induction fuel as [|fuel IH]; intros page acc sent r sent'; [discriminate|].
  cbn [fetch_loop]. fold (request_page token after page).
  destruct (raise_for_status _) as [batch|e].
  - destruct batch as [|a batch].
    + intros [= <- <-]. exists 1%nat. split; [lia | reflexivity].
    + destruct (_ <? _)%nat.
      * intros [= <- <-]. exists 1%nat. split; [lia | reflexivity].
      * intros H. apply IH in H as (n & Hn & ->).
        exists (S n). split; [lia|]. by rewrite <- app_assoc.
  - intros [= <- <-]. exists 1%nat. split; [lia | reflexivity].
Qed.

(** While every page keeps coming back full, the loop goes on. *)
Lemma fetch_loop_goes_on fuel :
  forall page acc sent,
    (forall p, (page <= p)%nat ->
       exists batch, raise_for_status (get (request_page token after p)) = Ok batch
                     /\ (per_page <= length batch)%nat) ->
    fetch_loop fuel get token after page acc sent = None.
Proof.
  induction fuel as [|fuel IH]; intros page acc sent Hfull; [reflexivity|].
  destruct (Hfull page ltac:(lia)) as (batch & Hget & Hlen).
  rewrite (fetch_loop_full_page _ _ _ _ batch) by done.
  apply IH. intros p Hp. apply Hfull. lia.
Qed.

(** Full pages move the loop forward with their items accumulated. *)
Lemma fetch_loop_skip_full (pages : nat -> list raw_activity) (n : nat) :
  forall j fuel acc sent,
    (forall i, (j <= i < j + n)%nat ->
       raise_for_status (get (request_page token after (S i))) = Ok (pages i)
       /\ (per_page <= length (pages i))%nat) ->
    fetch_loop (n + fuel) get token after (S j) acc sent
    = fetch_loop fuel get token after (S (j + n)) (acc ++ pages_upto pages j n)
        (sent ++ map (request_page token after) (seq (S j) n)).
Proof.
  induction n as [|n IH]; intros j fuel acc sent Hfull.
  - cbn. by rewrite !app_nil_r, Nat.add_0_r.
  - destruct (Hfull j ltac:(lia)) as [Hget Hlen].
    change (S n + fuel)%nat with (S (n + fuel)).
    rewrite (fetch_loop_full_page _ _ _ _ (pages j)) by done.
    rewrite IH by (intros i Hi; apply Hfull; lia).
    replace (S j + n)%nat with (j + S n)%nat by lia.
    f_equal.
    + rewrite <- app_assoc. reflexivity.
    + rewrite <- app_assoc. reflexivity.
Qed.
End Loop.

(** X6. Whatever the server answers, when the retrieval ends, with a list
    or with an error, the requests it has sent are those for pages 1, 2,
    ..., n in this order, each with the same token, the same [after] (the
    integer part of the timestamp) and 50 per page; n is at least 1. *)
Theorem fetch_pages_requests
    (get : activities_request -> http_response (list raw_activity))
    (token : string) (after_timestamp : Q) (fuel : nat)
    (r : res (list raw_activity)) (sent : list activities_request) :
  fetch_pages fuel get token after_timestamp = Some (r, sent) ->
  exists n, (1 <= n <= fuel)%nat
    /\ sent = map (fun p => mk_request token (int_of_float after_timestamp) p 50)
                (seq 1 n).
Proof.
  unfold fetch_pages. intros H.
  apply fetch_loop_requests in H as (n & Hn & ->). by exists n.
Qed.

Lemma fetch_pages_requests_witness :
  exists n, (1 <= n <= 2)%nat
    /\ map (request_page "token" 1700000000) (seq 1 2)
       = map (fun p => mk_request "token" (int_of_float 1700000000.5) p 50) (seq 1 n).
Proof.
  apply (fetch_pages_requests sample_server "token" 1700000000.5 2
           (Ok (repeat sample_activity 53))).
  vm_compute. reflexivity.
Defined.

(** X7. The loop has no bound of its own: against a server that answers
    every page with at least 50 items it is still running after any number
    of iterations. A page of more than 50 items does not end it either. *)
Theorem fetch_pages_unbounded
    (get : activities_request -> http_response (list raw_activity))
    (token : string) (after_timestamp : Q) :
  (forall p, (1 <= p)%nat ->
     exists batch,
       raise_for_status (get (mk_request token (int_of_float after_timestamp) p 50))
         = Ok batch
       /\ (50 <= length batch)%nat) ->
  forall fuel activity_type,
    fetch_pages fuel get token after_timestamp = None
    /\ fetch_activities fuel get token after_timestamp activity_type = None.
Proof.
  intros Hfull fuel ty.
  assert (H : fetch_pages fuel get token after_timestamp = None).
  { unfold fetch_pages. apply fetch_loop_goes_on. exact Hfull. }
  split; [exact H|]. unfold fetch_activities. by rewrite H.
Qed.

Lemma fetch_pages_unbounded_witness :
  fetch_pages 7 endless_server "token" 1700000000 = None.
Proof.
  apply (fetch_pages_unbounded endless_server "token" 1700000000).
  - intros p _. exists (repeat sample_activity 50). split; [reflexivity|].
    vm_compute. lia.
  - exact None.
Defined.

(** X8. An error status on page [k + 1], after [k] pages of at least 50
    items, aborts the retrieval: [HTTPError] with that status is raised
    right after the request for page [k + 1], and the activities of the
    earlier pages are not returned. *)
Theorem fetch_activities_http_error
    (get : activities_request -> http_response (list raw_activity))
    (token : string) (after_timestamp : Q)
    (pages : nat -> list raw_activity) (k fuel : nat)
    (activity_type : option string) :
  let rq := request_page token (int_of_float after_timestamp) in
  (forall i, (i < k)%nat ->
     raise_for_status (get (rq (S i))) = Ok (pages i) /\ (50 <= length (pages i))%nat) ->
  (400 <= status (get (rq (S k))) < 600)%nat ->
  (k < fuel)%nat ->
  fetch_activities fuel get token after_timestamp activity_type
  = Some (Raise (HTTPError (status (get (rq (S k))))), map rq (seq 1 (S k))).
Proof.
  intros rq Hfull [H1 H2] Hfuel. subst rq.
  unfold fetch_activities, fetch_pages.
  replace fuel with (k + S (fuel - S k))%nat by lia.
  rewrite (fetch_loop_skip_full get token _ pages k 0) by (intros i Hi; apply Hfull; lia).
  cbn [fetch_loop Nat.add].
  fold (request_page token (int_of_float after_timestamp) (S k)).
  unfold raise_for_status.
  apply Nat.leb_le in H1. apply Nat.ltb_lt in H2. rewrite H1, H2. cbn [andb app].
  rewrite seq_S, map_app. reflexivity.
Qed.

Lemma fetch_activities_http_error_witness :
  fetch_activities 5 broken_server "token" 1700000000 (Some "Run"%string)
  = Some (Raise (HTTPError 503),
          [mk_request "token" 1700000000 1 50; mk_request "token" 1700000000 2 50]).
Proof.
  apply (fetch_activities_http_error broken_server "token" 1700000000
           (fun _ => repeat sample_activity 50) 1 5).
  - intros i Hi. assert (i = 0%nat) as -> by lia. split; [reflexivity|].
    vm_compute. lia.
  - vm_compute. lia.
  - lia.
Defined.

Lemma filter_is_sublist {A : Type} (f : A -> bool) (l : list A) :
  sublist (List.filter f l) l.
Proof.
  induction l as [|x l IH]; cbn [List.filter]; [constructor|].
  destruct (f x); by constructor.
Qed.

(** X9. What [fetch_activities] returns is what the pages held, in the
    order they came, without the activities of another type: with a
    non-empty type every returned activity carries exactly that type and
    every retrieved activity of that type is returned; with no type, or the
    empty one, everything retrieved is returned. *)
Theorem fetch_activities_filter
    (get : activities_request -> http_response (list raw_activity))
    (token : string) (after_timestamp : Q) (fuel : nat)
    (activity_type : option string)
    (kept : list raw_activity) (sent : list activities_request) :
  fetch_activities fuel get token after_timestamp activity_type = Some (Ok kept, sent) ->
  exists retrieved,
    fetch_pages fuel get token after_timestamp = Some (Ok retrieved, sent)
    /\ sublist kept retrieved
    /\ (forall t, activity_type = Some t -> t <> EmptyString ->
          forall a, a ∈ kept <-> a ∈ retrieved /\ ra_type a = Some t)
    /\ (activity_type = None \/ activity_type = Some EmptyString -> kept = retrieved).
Proof.
  unfold fetch_activities.
  destruct (fetch_pages _ _ _ _) as [[[retrieved|e] sent']|]; try discriminate.
  intros [= <- <-]. exists retrieved. split; [reflexivity|].
  split; [|split].
  - unfold filter_type. destruct activity_type as [[|c t]|]; try reflexivity.
    apply filter_is_sublist.
  - intros t -> Hne a. destruct t as [|c t]; [done|].
    unfold filter_type. rewrite !list_elem_of_In, filter_In.
    unfold has_type. destruct (ra_type a) as [ty|].
    + rewrite String.eqb_eq. split; intros [? ?]; split; congruence.
    + split; intros [? ?]; discriminate.
  - by intros [-> | ->].
Qed.

Lemma fetch_activities_filter_witness :
  exists retrieved,
    fetch_pages 2 sample_server "token" 1700000000.5
      = Some (Ok retrieved,
              [mk_request "token" 1700000000 1 50; mk_request "token" 1700000000 2 50])
    /\ sublist (repeat sample_activity 53) retrieved.
Proof.
  destruct (fetch_activities_filter sample_server "token" 1700000000.5 2
              (Some "Run"%string) (repeat sample_activity 53)
              [mk_request "token" 1700000000 1 50; mk_request "token" 1700000000 2 50])
    as (retrieved & H1 & H2 & _).
  - vm_compute. reflexivity.
  - exists retrieved. split; [exact H1 | exact H2].
Defined.

(* --------------------------------------------------------------------- *)
(** ** More on [parse_activity] *)
(* --------------------------------------------------------------------- *)

(** What a returned record is made of. *)
Lemma parse_activity_inv (activity : raw_activity) (units : string) (r : activity_record) :
  parse_activity activity units = Ok r ->
  let distance := if String.eqb units "miles"
                  then (ra_distance activity / 1609.344)%Q
                  else (ra_distance activity / 1000)%Q in
  let t := ra_moving_time activity in
  let p := (inject_Z t / distance)%Q in
  exists start_date dt,
    ra_start_date activity = Some start_date
    /\ fromisoformat
         (replace_char "Z" "+00:00" (default start_date (ra_start_date_local activity)))
       = Ok dt
    /\ act_date r = strftime dt "%Y-%m-%d"
    /\ act_distance r = round2 distance
    /\ act_pace r
       = (if Qltb 0 distance
          then str_of_int (int_of_float (floordiv p 60)) +:+ ":"
               +:+ zfill 2 (int_of_float (pymod p 60))
          else "N/A"%string)
    /\ act_duration r
       = (if negb (t / 3600 =? 0)
          then str_of_int (t / 3600) +:+ ":" +:+ zfill 2 ((t mod 3600) / 60)
               +:+ ":" +:+ zfill 2 (t mod 60)
          else str_of_int ((t mod 3600) / 60) +:+ ":" +:+ zfill 2 (t mod 60))
    /\ act_name r = default EmptyString (ra_name activity).
Proof.
  intros H distance t p. revert H. unfold parse_activity. fold distance.
  destruct (Qltb 0 distance) eqn:Epos.
  - unfold truediv. destruct (Qeq_bool distance 0); [discriminate|].
    cbn [mbind res_bind].
    destruct (ra_start_date activity) as [sd|]; [|discriminate].
    cbn [subscript mbind res_bind].
    destruct (fromisoformat _) as [dt|e] eqn:Edt; [|discriminate].
    cbn [mbind res_bind]. intros [= <-]. exists sd, dt. repeat split; done.
  - cbn [mbind res_bind].
    destruct (ra_start_date activity) as [sd|]; [|discriminate].
    cbn [subscript mbind res_bind].
    destruct (fromisoformat _) as [dt|e] eqn:Edt; [|discriminate].
    cbn [mbind res_bind]. intros [= <-]. exists sd, dt. repeat split; done.
Qed.

(** X10. The duration label of a returned record: below one hour it is
    the minutes, unpadded, and two digits of seconds, with no hour field;
    from one hour on it is the hours, two digits of minutes and two digits
    of seconds. *)
Theorem parse_activity_duration_label
    (activity : raw_activity) (units : string) (r : activity_record) :
  parse_activity activity units = Ok r ->
  let t := ra_moving_time activity in
  (0 <= t < 3600 ->
     act_duration r = str_of_int (t / 60) +:+ ":" +:+ two_digit_string (t mod 60))
  /\ (3600 <= t ->
        act_duration r
        = str_of_int (t / 3600) +:+ ":" +:+ two_digit_string ((t mod 3600) / 60)
          +:+ ":" +:+ two_digit_string (t mod 60)
        /\ 1 <= t / 3600 /\ 0 <= (t mod 3600) / 60 <= 59 /\ 0 <= t mod 60 <= 59).
Proof.
  intros H t. apply parse_activity_inv in H as (sd & dt & _ & _ & _ & _ & _ & Hdur & _).
  fold t in Hdur. rewrite Hdur. split.
  - intros Ht. rewrite Z.div_small, Z.mod_small by lia. cbn [Z.eqb negb].
    rewrite zfill_2; [reflexivity|].
    pose proof (Z.mod_pos_bound t 60). lia.
  - intros Ht.
    assert (H1 : 1 <= t / 3600) by (apply Z.div_le_lower_bound; lia).
    assert (H2 : 0 <= (t mod 3600) / 60 <= 59).
    { pose proof (Z.mod_pos_bound t 3600 ltac:(lia)). split.
      - apply Z.div_pos; lia.
      - apply Z.lt_succ_r. apply Z.div_lt_upper_bound; lia. }
    assert (H3 : 0 <= t mod 60 <= 59) by (pose proof (Z.mod_pos_bound t 60); lia).
    destruct (t / 3600 =? 0) eqn:E; [apply Z.eqb_eq in E; lia|]. cbn [negb].
    rewrite !zfill_2 by lia. done.
Qed.

Lemma parse_activity_duration_label_witness :
  act_duration (mk_record "2024-03-15" 6.21 "8:02" "50:00" "Morning Run")
  = str_of_int (3000 / 60) +:+ ":" +:+ two_digit_string (3000 mod 60).
Proof.
  apply (parse_activity_duration_label (morning_run (Some "2024-03-15T14:00:00Z"))
           "miles").
  - vm_compute. reflexivity.
  - cbn. lia.
Defined.



(** The first character of [str(n)] is a digit or the minus sign. *)
Lemma str_of_int_head (n : Z) :
  exists c rest, str_of_int n = String c rest /\ (is_digit c = true \/ c = "-"%char).
Proof.
  unfold str_of_int, NilZero.string_of_int.
  destruct (Z.to_int n) as [u|u].
  - unfold NilZero.string_of_uint.
    destruct u; cbn; eexists _, _; (split; [reflexivity | by left]).
  - eexists _, _. split; [reflexivity | by right].
Qed.

Lemma scaled_positive (d k : Q) : (0 < k)%Q -> (0 < d / k)%Q <-> (0 < d)%Q.
Proof.
  intros Hk. split; intros Hd.
  - assert (E : (d == d / k * k)%Q) by (field; lra).
    rewrite E. by apply Qmult_lt_0_compat.
  - apply Qlt_shift_div_l; [done | lra].
Qed.



(** Rounding to the nearest integer moves a number by at most one half. *)
Lemma round_half_even_near (x : Q) :
  (x - (1 # 2) <= inject_Z (round_half_even x) <= x + (1 # 2))%Q.
Proof.
  unfold round_half_even.
  pose proof (Qfloor_le x) as Hlo. pose proof (Qlt_floor x) as Hhi.
  rewrite inject_Z_plus in Hhi. change (inject_Z 1) with 1%Q in Hhi.
  set (f := Qfloor x) in *.
  destruct (Qcompare_spec (x - inject_Z f) (1 # 2)) as [E|E|E].
  - destruct (Z.even f); rewrite ?inject_Z_plus; change (inject_Z 1) with 1%Q; lra.
  - lra.
  - rewrite inject_Z_plus. change (inject_Z 1) with 1%Q. lra.
Qed.



(* --------------------------------------------------------------------- *)
(** ** Dates in canonical form *)
(* --------------------------------------------------------------------- *)

Lemma is_digit_digit_char (n : Z) : 0 <= n <= 9 -> is_digit (digit_char n) = true.
Proof.
  intros Hn. apply (below_cases (fun k => is_digit (digit_char k)) 10);
    [vm_compute; reflexivity | lia].
Qed.

Lemma strptime_valid (s fmt : string) (d : ymd) :
  strptime s fmt = Ok d -> valid_date d = true.
Proof.
  unfold strptime. destruct (compile_format fmt) as [ds|]; [|discriminate].
  destruct (re_match ds s default_fields) as [|[f rest] l]; [discriminate|].
  destruct (is_empty rest); [|discriminate].
  destruct (valid_date f) eqn:E; [|discriminate]. by intros [= <-].
Qed.

Lemma fromisoformat_valid (s : string) (d : ymd) :
  fromisoformat s = Ok d -> valid_date d = true.
Proof.
  unfold fromisoformat. destruct (iso_date s) as [[f rest]|]; [|discriminate].
  destruct (valid_date f) eqn:E; cbn [negb]; [|discriminate].
  destruct rest as [|c tstr]; [by intros [= <-]|].
  destruct (iso_time tstr); [by intros [= <-] | discriminate].
Qed.

Lemma valid_date_range (d : ymd) :
  valid_date d = true ->
  1 <= year d <= 9999 /\ 1 <= month d <= 12 /\ 1 <= day d <= 31.
Proof.
  unfold valid_date. rewrite !andb_true_iff, !Z.leb_le.
  intros [[[[[? ?] ?] ?] ?] Hday].
  assert (days_in_month (year d) (month d) <= 31).
  { unfold days_in_month.
    destruct (month d =? 2); [destruct (is_leap _); lia|].
    destruct (_ || _)%bool; lia. }
  lia.
Qed.

(** A calendar date prints as YYYY-MM-DD. *)
Lemma strftime_canonical (d : ymd) :
  valid_date d = true -> is_canonical (strftime d "%Y-%m-%d") = true.
Proof.
  intros Hv. apply valid_date_range in Hv as (Hy & Hm & Hd).
  unfold strftime. rewrite compile_iso. cbn [fold_right render].
  rewrite zfill_4, !zfill_2 by lia.
  unfold four_digit_string, two_digit_string.
  cbv [String.append is_canonical].
  pose proof (Z.mod_pos_bound (year d) 100 ltac:(lia)).
  rewrite !is_digit_digit_char; [reflexivity|..].
  - pose proof (Z.mod_pos_bound (day d) 10). lia.
  - split; [apply Z.div_pos; lia | apply Z.lt_succ_r, Z.div_lt_upper_bound; lia].
  - pose proof (Z.mod_pos_bound (month d) 10). lia.
  - split; [apply Z.div_pos; lia | apply Z.lt_succ_r, Z.div_lt_upper_bound; lia].
  - pose proof (Z.mod_pos_bound (year d mod 100) 10). lia.
  - split; [apply Z.div_pos; lia | apply Z.lt_succ_r, Z.div_lt_upper_bound; lia].
  - pose proof (Z.mod_pos_bound (year d / 100) 10). lia.
  - split; [apply Z.div_pos; lia | apply Z.lt_succ_r, Z.div_lt_upper_bound; lia].
Qed.

Lemma normalize_date_fixed (s : string) :
  is_canonical s = true -> normalize_date s = Some s.
Proof.
  intros H.
  apply is_canonical_inv in H
    as (y1 & y2 & y3 & y4 & m1 & m2 & d1 & d2 & -> & ? & ? & ? & ? & ? & ? & ? & ?).
  by apply normalize_date_canonical_string.
Qed.



(* --------------------------------------------------------------------- *)
(** ** What [normalize_date] returns *)
(* --------------------------------------------------------------------- *)

Lemma try_formats_Some (fmts : list string) (val s : string) :
  try_formats fmts val = Some s ->
  exists fmt d, fmt ∈ fmts /\ strptime (strip val) fmt = Ok d
                /\ s = strftime d "%Y-%m-%d".
Proof.
  induction fmts as [|fmt fmts IH]; cbn [try_formats]; [discriminate|].
  destruct (strptime (strip val) fmt) as [d|e] eqn:E.
  - intros [= <-]. exists fmt, d. split; [by left | by split].
  - intros H. destruct (IH H) as (fmt' & d & Hin & Hp & Hs).
    exists fmt', d. split; [by right | by split].
Qed.

Lemma try_formats_None (fmts : list string) (val : string) :
  try_formats fmts val = None ->
  forall fmt, fmt ∈ fmts -> exists e, strptime (strip val) fmt = Raise e.
Proof.
  induction fmts as [|fmt fmts IH]; cbn [try_formats]; intros H fmt' Hin.
  - by apply elem_of_nil in Hin.
  - destruct (strptime (strip val) fmt) as [d|e] eqn:E; [discriminate|].
    apply elem_of_cons in Hin as [->|Hin]; [eauto | by apply IH].
Qed.


(* --------------------------------------------------------------------- *)
(** ** White space around a date *)
(* --------------------------------------------------------------------- *)

Lemma lstrip_head (s : string) :
  match lstrip s with
  | EmptyString => True
  | String c _ => is_space c = false
  end.
Proof.
  induction s as [|c s IH]; cbn [lstrip]; [done|].
  destruct (is_space c) eqn:E; [exact IH | exact E].
Qed.

Lemma rstrip_idem (s : string) : rstrip (rstrip s) = rstrip s.
Proof.
  induction s as [|c s IH]; [reflexivity|]. cbn [rstrip].
  destruct (is_space c && is_empty (rstrip s)) eqn:E; [reflexivity|].
  cbn [rstrip]. by rewrite IH, E.
Qed.

Lemma strip_idem (s : string) : strip (strip s) = strip s.
Proof.
  unfold strip. pose proof (lstrip_head s) as Hhead.
  destruct (lstrip s) as [|c t]; [reflexivity|].
  cbn [rstrip]. rewrite Hhead. cbn [andb lstrip]. rewrite Hhead.
  cbn [rstrip]. by rewrite rstrip_idem, Hhead.
Qed.

Lemma try_formats_strip (fmts : list string) (val : string) :
  try_formats fmts val = try_formats fmts (strip val).
Proof.
  induction fmts as [|fmt fmts IH]; cbn [try_formats]; [reflexivity|].
  by rewrite strip_idem, IH.
Qed.



(* --------------------------------------------------------------------- *)
(** ** Day-first dates *)
(* --------------------------------------------------------------------- *)

Lemma in_range_digit (lo hi c : ascii) :
  is_digit lo = true -> is_digit hi = true -> in_range lo hi c = true ->
  is_digit c = true.
Proof.
  unfold is_digit, in_range. rewrite !andb_true_iff, !Nat.leb_le.
  intros [? ?] [? ?] [? ?]. split; lia.
Qed.

Lemma re_match_In (x : directive) (ds : list directive) (s : string) (acc : ymd)
    (m : ymd * string) :
  In m (re_match (x :: ds) s acc) <->
  exists y, In y (re_step x s acc) /\ In m (re_match ds (snd y) (fst y)).
Proof. cbn [re_match]. apply in_flat_map. Qed.

(** Only [%d] sets the day. *)
Lemma re_match_keeps_day (ds : list directive) :
  Forall (fun x => x <> Dd) ds ->
  forall s acc m, In m (re_match ds s acc) -> day (fst m) = day acc.
Proof.
  induction ds as [|x ds IH]; intros Hds s acc m.
  - cbn. intros [<-|[]]. reflexivity.
  - apply Forall_cons in Hds as [Hx Hds]. rewrite re_match_In.
    intros (y & Hy & Hm). rewrite (IH Hds _ _ _ Hm).
    destruct x; try done; cbn [re_step] in Hy; unfold with_field in Hy;
      apply in_map_iff in Hy as (z & <- & _); reflexivity.
Qed.

Lemma re_lit_slash_inv (s r : string) : In r (re_lit "/" s) -> s = String "/" r.
Proof.
  destruct s as [|a s]; cbn [re_lit]; [done|].
  destruct (Ascii.eqb (to_lower a) (to_lower "/")) eqn:E; [|done].
  intros [<-|[]]. f_equal.
  destruct a as [[] [] [] [] [] [] [] []]; vm_compute in E; first [discriminate E | reflexivity].
Qed.

(** A day above 12 is read from two digits. *)
Lemma re_d_above_12 (s r : string) (v : Z) :
  In (v, r) (re_d s) -> 12 < v ->
  exists c1 c2, s = String c1 (String c2 r)
                /\ is_digit c1 = true /\ is_digit c2 = true
                /\ v = 10 * digit_val c1 + digit_val c2.
Proof.
  unfold re_d, two_chars, one_char. rewrite !in_app_iff.
  destruct s as [|a [|b s]]; cbn [In]; try tauto.
  - destruct (in_range "1" "9" a) eqn:E; cbn [In]; [|tauto].
    intros [[]|[[]|[[]|[[[= <- <-]|[]]|[]]]]] Hv.
    apply (in_range_digit "1" "9") in E; [|done..].
    apply is_digit_inv in E. lia.
  - intros H Hv.
    assert (Hcase : (is_digit a = true /\ is_digit b = true /\ a <> " "%char
                     /\ (v, r) = (10 * digit_val a + digit_val b, s))
                    \/ v <= 9).
    { destruct H as [H|[H|[H|[H|H]]]].
      - destruct (Ascii.eqb a "3" && in_range "0" "1" b) eqn:E; [|done].
        destruct H as [[= <- <-]|[]]. apply andb_true_iff in E as [Ea Eb].
        apply Ascii.eqb_eq in Ea as ->. left. repeat split; try done.
        by apply (in_range_digit "0" "1").
      - destruct (in_range "1" "2" a && is_digit b) eqn:E; [|done].
        destruct H as [[= <- <-]|[]]. apply andb_true_iff in E as [Ea Eb].
        apply (in_range_digit "1" "2") in Ea; [|done..].
        left. assert (a <> " "%char) by (intros ->; discriminate Ea).
        destruct (Ascii.eqb_spec a " "); [done|]. by repeat split.
      - destruct (Ascii.eqb a "0" && in_range "1" "9" b) eqn:E; [|done].
        destruct H as [[= <- <-]|[]]. apply andb_true_iff in E as [Ea Eb].
        apply Ascii.eqb_eq in Ea as ->. left. repeat split; try done.
        by apply (in_range_digit "1" "9").
      - destruct (in_range "1" "9" a) eqn:E; [|done].
        destruct H as [[= <- <-]|[]].
        apply (in_range_digit "1" "9") in E; [|done..].
        apply is_digit_inv in E. right. lia.
      - destruct (Ascii.eqb a " " && in_range "1" "9" b) eqn:E; [|done].
        destruct H as [[= <- <-]|[]]. apply andb_true_iff in E as [Ea Eb].
        apply Ascii.eqb_eq in Ea as ->.
        apply (in_range_digit "1" "9") in Eb; [|done..].
        apply is_digit_inv in Eb. right. rewrite Ascii.eqb_refl. lia. }
    destruct Hcase as [(Ha & Hb & _ & [= -> ->])|Hle]; [|lia].
    exists a, b. by repeat split.
Qed.

(** The shape of a string the day-first pattern reads a day above 12 from. *)
Lemma day_first_shape (t : string) (d : ymd) :
  strptime t "%d/%m/%Y" = Ok d -> 12 < day d ->
  exists c1 c2 r,
    t = String c1 (String c2 (String "/" r))
    /\ is_digit c1 = true /\ is_digit c2 = true
    /\ 12 < 10 * digit_val c1 + digit_val c2.
Proof.
  unfold strptime. rewrite compile_dmY.
  destruct (re_match _ t default_fields) as [|[f rest] l] eqn:E; [discriminate|].
  destruct (is_empty rest); [|discriminate].
  destruct (valid_date f); [|discriminate]. intros [= <-] Hday.
  assert (Hin : In (f, rest) (re_match [Dd; DLit "/"; Dm; DLit "/"; DY] t default_fields))
    by (rewrite E; by left).
  apply re_match_In in Hin as ([a' r'] & Hstep & Hin). cbn [fst snd] in Hin.
  cbn [re_step] in Hstep. unfold with_field in Hstep.
  apply in_map_iff in Hstep as ([v r0] & [= <- <-] & Hv). cbn [fst snd] in *.
  assert (Hd : day f = v).
  { apply (re_match_keeps_day [DLit "/"; Dm; DLit "/"; DY]) in Hin; [exact Hin|].
    repeat constructor; discriminate. }
  apply re_match_In in Hin as ([a'' r''] & Hlit & _).
  cbn [re_step] in Hlit. apply in_map_iff in Hlit as (r1 & [= _ <-] & Hlit).
  apply re_lit_slash_inv in Hlit as ->.
  apply re_d_above_12 in Hv as (c1 & c2 & -> & H1 & H2 & Hval); [|lia].
  exists c1, c2, r1. repeat split; try done. lia.
Qed.

Lemma month_slash_above_12 c1 c2 r ds acc :
  is_digit c1 = true -> is_digit c2 = true ->
  12 < 10 * digit_val c1 + digit_val c2 ->
  re_match (Dm :: DLit "/" :: ds) (String c1 (String c2 r)) acc = [].
Proof.
  intros H1 H2 Hv.
  change (re_match (Dm :: DLit "/" :: ds) ?t acc)
    with (flat_map (fun ar => re_match (DLit "/" :: ds) (snd ar) (fst ar))
            (with_field set_month acc (re_m t))).
  rewrite re_m_two_digits by done.
  replace (10 * digit_val c1 + digit_val c2 <=? 12) with false
    by (symmetry; apply Z.leb_gt; lia).
  rewrite andb_false_r. cbn [app].
  destruct (in_range "1" "9" c1); [|reflexivity].
  cbn [with_field map flat_map fst snd re_match re_step].
  by rewrite re_lit_slash_digit.
Qed.

(** X17. A slash date whose day-first reading has a day above 12 is read
    day-first: the ISO pattern and both month-first patterns fail on it,
    and [normalize_date] returns the day-first reading as YYYY-MM-DD. *)
Theorem normalize_date_day_first (val : string) (d : ymd) :
  strptime (strip val) "%d/%m/%Y" = Ok d ->
  12 < day d ->
  (forall fmt, fmt ∈ ["%Y-%m-%d"; "%m/%d/%Y"; "%m/%d/%y"]%string ->
     exists e, strptime (strip val) fmt = Raise e)
  /\ normalize_date val = Some (strftime d "%Y-%m-%d").
Proof.
  intros Hp Hday.
  destruct (day_first_shape _ _ Hp Hday) as (c1 & c2 & r & Et & H1 & H2 & Hv).
  assert (Hiso : strptime (strip val) "%Y-%m-%d"
                 = Raise (ValueError "time data does not match format")).
  { rewrite Et. unfold strptime. rewrite compile_iso. cbn [re_match re_step].
    unfold re_Y. destruct r as [|x r]; [reflexivity|].
    rewrite H1, H2. cbn. reflexivity. }
  assert (HmdY : strptime (strip val) "%m/%d/%Y"
                 = Raise (ValueError "time data does not match format")).
  { rewrite Et. unfold strptime. by rewrite compile_mdY, month_slash_above_12. }
  assert (Hmdy : strptime (strip val) "%m/%d/%y"
                 = Raise (ValueError "time data does not match format")).
  { rewrite Et. unfold strptime. by rewrite compile_mdy, month_slash_above_12. }
  split.
  - intros fmt Hin. rewrite !elem_of_cons in Hin.
    destruct Hin as [->|[->|[->|Hin]]]; eauto. by apply elem_of_nil in Hin.
  - destruct val as [|c v]; [vm_compute in Hp; discriminate Hp|].
    unfold normalize_date, formats. cbn [is_empty try_formats].
    by rewrite Hiso, HmdY, Hmdy, Hp.
Qed.

Lemma normalize_date_day_first_witness :
  normalize_date "25/12/2024" = Some "2024-12-25"%string.
Proof.
  apply (normalize_date_day_first "25/12/2024" (mk_ymd 2024 12 25)).
  - vm_compute. reflexivity.
  - cbn. lia.
Defined.

(* --------------------------------------------------------------------- *)
(** ** More on the scan and on a run *)
(* --------------------------------------------------------------------- *)

(** X18. [find_date_row] returns a row exactly when that row is within the
    grid, its date cell normalizes to the date, and no row above it does;
    it returns [None] exactly when no row of the grid matches. Empty cells
    never match. *)
Theorem find_date_row_spec
    (display : sheet_value -> string) (ws : worksheet)
    (date_str : string) (date_col : nat) :
  (forall r,
     find_date_row display ws date_str date_col = Some r <->
     (1 <= r <= row_count ws)%nat
     /\ row_matches display ws date_col date_str r
     /\ forall k, (1 <= k < r)%nat -> ~ row_matches display ws date_col date_str k)
  /\ (find_date_row display ws date_str date_col = None <->
      forall k, (1 <= k <= row_count ws)%nat ->
        ~ row_matches display ws date_col date_str k)
  /\ (forall k, cell_text display ws k date_col = EmptyString ->
        ~ row_matches display ws date_col date_str k).
Proof.
  split; [|split].
  - intros r. apply find_date_row_Some.
  - apply find_date_row_None.
  - intros k Hk. unfold row_matches. rewrite Hk. discriminate.
Qed.

Section Accounting.
Variable display : sheet_value -> string.
Variable m : sheet_mapping.

Lemma sublist_snoc {A : Type} (l1 l2 : list A) (x : A) :
  sublist l1 l2 -> sublist (l1 ++ [x]) (l2 ++ [x]).
Proof. intros H. apply sublist_app; [exact H | reflexivity]. Qed.

Lemma sublist_snoc_r {A : Type} (l1 l2 : list A) (x : A) :
  sublist l1 l2 -> sublist l1 (l2 ++ [x]).
Proof.
  intros H. rewrite <- (app_nil_r l1). apply sublist_app; [exact H|].
  by apply sublist_cons.
Qed.

Lemma run_accounting acts ws :
  let st := update_sheet display m acts ws in
  run_updates st = length (run_batches st)
  /\ (run_updates st + length (run_skipped st))%nat = length acts
  /\ sublist (run_skipped st) (map act_date acts).
Proof.
  induction acts as [|act acts IH] using rev_ind.
  - cbn. repeat split; constructor.
  - cbv zeta in *. rewrite update_sheet_snoc. destruct IH as (H1 & H2 & H3).
    unfold update_sheet_step.
    destruct (find_date_row _ _ _ _) as [row|];
      cbn [run_updates run_batches run_skipped];
      rewrite !length_app, map_app; cbn [length map]; repeat split; try lia.
    + by apply sublist_snoc_r.
    + by apply sublist_snoc.
Qed.

(** The sheet after a run is the sheet before it with the cells of all
    batches set in order. *)
Lemma run_sheet_batches acts ws :
  run_sheet (update_sheet display m acts ws)
  = update_cells ws (concat (run_batches (update_sheet display m acts ws))).
Proof.
  induction acts as [|act acts IH] using rev_ind.
  - cbn. by destruct ws.
  - rewrite update_sheet_snoc. unfold update_sheet_step.
    destruct (find_date_row _ _ _ _) as [row|]; cbn [run_sheet run_batches]; [|exact IH].
    rewrite IH, concat_app. cbn [concat]. rewrite app_nil_r.
    unfold update_cells. cbn [row_count cells]. by rewrite foldl_app.
Qed.
End Accounting.

(** X19. Every record of a run is either written or skipped: the count of
    updates is the number of batches handed to [update_cells], updates and
    skipped dates together are as many as the records, and the skipped
    dates are dates of the records, in the order the records came. *)
Theorem update_sheet_accounting
    (display : sheet_value -> string) (m : sheet_mapping)
    (acts : list activity_record) (ws : worksheet) :
  let st := update_sheet display m acts ws in
  run_updates st = length (run_batches st)
  /\ (run_updates st + length (run_skipped st))%nat = length acts
  /\ sublist (run_skipped st) (map act_date acts).
Proof. apply run_accounting. Qed.

(** X20. A run never writes outside the grid and never changes its size:
    every cell of every batch lies in a row between 1 and the row count of
    the sheet, the row count after the run is the one before it, and the
    sheet after the run is the sheet before it with the cells of the
    batches set in order. *)
Theorem update_sheet_within_grid
    (display : sheet_value -> string) (m : sheet_mapping)
    (acts : list activity_record) (ws : worksheet) :
  let st := update_sheet display m acts ws in
  row_count (run_sheet st) = row_count ws
  /\ (forall batch c, batch ∈ run_batches st -> c ∈ batch ->
        (1 <= cell_row c <= row_count ws)%nat)
  /\ run_sheet st = update_cells ws (concat (run_batches st)).
Proof.
  intros st. split; [apply run_row_count|]. split; [|apply run_sheet_batches].
  intros batch c Hb Hc.
  destruct (run_batches_origin display m acts ws batch Hb)
    as (pre & act & post & row & _ & Hrow & ->).
  apply cells_to_update_in in Hc as [-> _].
  apply find_date_row_Some in Hrow as (Hrange & _).
  by rewrite run_row_count in Hrange.
Qed.

Lemma omap_ext_all {A B : Type} (f g : A -> option B) (l : list A) :
  (forall x, f x = g x) -> omap f l = omap g l.
Proof.
  intros H. induction l as [|x l IH]; [reflexivity|].
  cbn [omap list_omap]. by rewrite H, IH.
Qed.

Lemma update_cells_twice (ws : worksheet) (batch : list Cell) :
  update_cells (update_cells ws batch) batch = update_cells ws batch.
Proof.
  assert (E : cells (update_cells (update_cells ws batch) batch)
              = cells (update_cells ws batch)).
  { apply map_eq. intros k. rewrite !update_cells_lookup.
    by destruct (batch_lookup batch k). }
  unfold update_cells in *. cbn [cells row_count] in *. by rewrite E.
Qed.

(** X21. Running the same records again changes nothing: when the date
    column is none of the written columns, a second run over the sheet the
    first run left writes the same batches, reports the same updates and
    skipped dates, and leaves the sheet as the first run left it. *)
Theorem update_sheet_rerun
    (display : sheet_value -> string) (m : sheet_mapping)
    (acts : list activity_record) (ws : worksheet) :
  date_column m ∉ written_columns m ->
  let first := update_sheet display m acts ws in
  let second := update_sheet display m acts (run_sheet first) in
  run_batches second = run_batches first
  /\ run_updates second = run_updates first
  /\ run_skipped second = run_skipped first
  /\ run_sheet second = run_sheet first.
Proof.
  intros Hapart first second.
  assert (Hfind : forall date_str,
            find_date_row display (run_sheet first) date_str (date_column m)
            = find_date_row display ws date_str (date_column m))
    by (intros; by apply run_keeps_matches).
  assert (Hb : run_batches second = run_batches first).
  { unfold second, first. rewrite !run_batches_eq by done.
    apply omap_ext_all. intros act. unfold batch_of. by rewrite Hfind. }
  split; [exact Hb|]. split; [|split].
  - destruct (run_accounting display m acts ws) as (H1 & _).
    destruct (run_accounting display m acts (run_sheet first)) as (H2 & _).
    change (run_updates second = length (run_batches second)) in H2.
    change (run_updates first = length (run_batches first)) in H1.
    by rewrite H1, H2, Hb.
  - unfold second, first. rewrite !run_skipped_eq by done. f_equal.
    apply List.filter_ext. intros act. by rewrite Hfind.
  - assert (E1 : run_sheet first = update_cells ws (concat (run_batches first)))
      by apply run_sheet_batches.
    assert (E2 : run_sheet second
                 = update_cells (run_sheet first) (concat (run_batches second)))
      by apply run_sheet_batches.
    rewrite E2, Hb, E1. apply update_cells_twice.
Qed.

Lemma update_sheet_rerun_witness :
  run_sheet (update_sheet show_value sample_mapping [named_run; unnamed_run]
               (run_sheet (update_sheet show_value sample_mapping
                             [named_run; unnamed_run] sample_sheet)))
  = run_sheet (update_sheet show_value sample_mapping [named_run; unnamed_run] sample_sheet).
Proof.
  apply (update_sheet_rerun show_value sample_mapping [named_run; unnamed_run] sample_sheet).
  vm_compute. intros H.
  repeat (apply elem_of_cons in H as [H|H]; [discriminate H|]).
  by apply elem_of_nil in H.
Defined.

(* --------------------------------------------------------------------- *)
(** ** The order of the records *)
(* --------------------------------------------------------------------- *)

Lemma batch_lookup_app (l1 l2 : list Cell) (k : nat * nat) :
  batch_lookup (l1 ++ l2) k
  = match batch_lookup l2 k with
    | Some v => Some v
    | None => batch_lookup l1 k
    end.
Proof.
  induction l1 as [|c l1 IH]; cbn [app batch_lookup].
  - by destruct (batch_lookup l2 k).
  - rewrite IH. by destruct (batch_lookup l2 k).
Qed.

Section Order.
Variable display : sheet_value -> string.
Variable m : sheet_mapping.
Variable ws : worksheet.

(** The cells written for a list of records, against the sheet [ws]. *)
Local Abbreviation writes := (fun acts => concat (omap (batch_of display m ws) acts)).

Lemma writes_cons act acts :
  writes (act :: acts)
  = default [] (batch_of display m ws act) ++ writes acts.
Proof. cbn [omap list_omap]. by destruct (batch_of display m ws act). Qed.

(** The batches of two records of different dates do not meet. *)
Lemma batch_lookup_apart a b k :
  act_date a <> act_date b ->
  batch_lookup (default [] (batch_of display m ws a)) k = None
  \/ batch_lookup (default [] (batch_of display m ws b)) k = None.
Proof.
  intros Hne. unfold batch_of.
  destruct (find_date_row display ws (act_date a) (date_column m)) as [ra|] eqn:Ea;
    [|by left].
  destruct (find_date_row display ws (act_date b) (date_column m)) as [rb|] eqn:Eb;
    [|by right].
  cbn [fmap option_fmap option_map default from_option id].
  destruct (batch_lookup (cells_to_update m ra a) k) as [va|] eqn:La; [|by left].
  destruct (batch_lookup (cells_to_update m rb b) k) as [vb|] eqn:Lb; [|by right].
  exfalso. apply Hne.
  apply batch_lookup_in in La as (ca & Hca & Eka), Lb as (cb & Hcb & Ekb).
  apply cells_to_update_in in Hca as [Hra _], Hcb as [Hrb _].
  apply (find_date_row_inj display ws (date_column m) _ _ ra); [done|].
  rewrite Eb. f_equal. destruct k as [r c]. congruence.
Qed.

Lemma writes_permutation acts acts' k :
  Permutation acts acts' ->
  NoDup (map act_date acts) ->
  batch_lookup (writes acts) k = batch_lookup (writes acts') k.
Proof.
  induction 1 as [|x l l' Hp IH|x y l|l l' l'' Hp1 IH1 Hp2 IH2]; intros Hnd.
  - reflexivity.
  - rewrite !writes_cons, !batch_lookup_app.
    cbn [map] in Hnd. apply NoDup_cons in Hnd as [_ Hnd]. by rewrite IH.
  - rewrite !writes_cons, !batch_lookup_app.
    cbn [map] in Hnd. apply NoDup_cons in Hnd as [Hy _].
    apply not_elem_of_cons in Hy as [Hyx _].
    destruct (batch_lookup (concat (omap (batch_of display m ws) l)) k); [reflexivity|].
    destruct (batch_lookup_apart y x k Hyx) as [E|E]; rewrite E.
    + by destruct (batch_lookup (default [] (batch_of display m ws x)) k).
    + by destruct (batch_lookup (default [] (batch_of display m ws y)) k).
  - rewrite IH1 by done. apply IH2.
    assert (Hm : map act_date l ≡ₚ map act_date l') by by apply Permutation_map.
    by rewrite <- Hm.
Qed.
End Order.

(** X22. For records of pairwise different dates the order does not
    matter: when the date column is none of the written columns, any two
    orders of the same records leave the same sheet, the same number of
    updates and, up to order, the same skipped dates. The sort of [main]
    only decides between records of one day. *)
Theorem update_sheet_order_irrelevant
    (display : sheet_value -> string) (m : sheet_mapping)
    (acts acts' : list activity_record) (ws : worksheet) :
  date_column m ∉ written_columns m ->
  Permutation acts acts' ->
  NoDup (map act_date acts) ->
  run_sheet (update_sheet display m acts' ws) = run_sheet (update_sheet display m acts ws)
  /\ run_updates (update_sheet display m acts' ws)
     = run_updates (update_sheet display m acts ws)
  /\ Permutation (run_skipped (update_sheet display m acts' ws))
       (run_skipped (update_sheet display m acts ws)).
Proof.
  intros Hapart Hperm Hnd. split; [|split].
  - rewrite !run_sheet_batches, !run_batches_eq by done.
    assert (E : cells (update_cells ws (concat (omap (batch_of display m ws) acts')))
                = cells (update_cells ws (concat (omap (batch_of display m ws) acts)))).
    { apply map_eq. intros k. rewrite !update_cells_lookup.
      by rewrite (writes_permutation display m ws acts acts' k Hperm Hnd). }
    unfold update_cells in *. cbn [cells row_count] in *. by rewrite E.
  - destruct (run_accounting display m acts ws) as (H1 & _).
    destruct (run_accounting display m acts' ws) as (H2 & _).
    cbv zeta in H1, H2. rewrite H1, H2.
    rewrite !run_batches_eq by done.
    apply Permutation_length. symmetry. by apply omap_Permutation.
  - rewrite !run_skipped_eq by done. apply Permutation_map.
    symmetry. clear Hnd. induction Hperm; cbn [List.filter].
    + constructor.
    + destruct (bool_decide _); [by constructor | done].
    + destruct (bool_decide _), (bool_decide _); try reflexivity. apply perm_swap.
    + by etransitivity.
Qed.

Lemma update_sheet_order_irrelevant_witness :
  run_sheet (update_sheet show_value sample_mapping [next_day_run; named_run] sample_sheet)
  = run_sheet (update_sheet show_value sample_mapping [named_run; next_day_run] sample_sheet).
Proof.
  apply (update_sheet_order_irrelevant show_value sample_mapping
           [named_run; next_day_run] [next_day_run; named_run] sample_sheet).
  - vm_compute. intros H.
    repeat (apply elem_of_cons in H as [H|H]; [discriminate H|]).
    by apply elem_of_nil in H.
  - apply perm_swap.
  - cbn [map act_date named_run next_day_run].
    apply NoDup_cons. split.
    + intros H. apply elem_of_cons in H as [H|H]; [discriminate H|].
      by apply elem_of_nil in H.
    + apply NoDup_cons. split; [apply not_elem_of_nil | apply NoDup_nil_2].
Defined.

(* --------------------------------------------------------------------- *)
(** ** The sort *)
(* --------------------------------------------------------------------- *)

(** X23. Records that already come in ascending order of date are left in
    the order they came in, so sorting twice is sorting once; the sort
    neither drops nor adds a record. *)
Theorem sort_by_date_sorted_input (parsed : list activity_record) :
  (Sorted date_le parsed -> sort_by_date parsed = parsed)
  /\ sort_by_date (sort_by_date parsed) = sort_by_date parsed
  /\ length (sort_by_date parsed) = length parsed.
Proof.
  assert (Hid : forall l, Sorted date_le l -> sort_by_date l = l).
  { induction l as [|x l IH]; intros Hs; [reflexivity|].
    apply Sorted_inv in Hs as [Hs Hhd]. cbn [sort_by_date fold_right].
    fold (sort_by_date l). rewrite (IH Hs).
    destruct l as [|y l]; [reflexivity|]. cbn [insert_by_date].
    apply HdRel_inv in Hhd. unfold date_le in Hhd. by rewrite Hhd. }
  destruct (sort_by_date_spec parsed) as (Hs & Hp & _).
  split; [apply Hid|]. split; [by apply Hid|]. by apply Permutation_length.
Qed.

(* --------------------------------------------------------------------- *)
(** ** [main] *)
(* --------------------------------------------------------------------- *)

Lemma parse_all_Ok (activities : list raw_activity) (units : string) :
  forall parsed,
    parse_all activities units = Ok parsed <->
    Forall2 (fun a r => parse_activity a units = Ok r) activities parsed.
Proof.
  unfold parse_all.
  induction activities as [|a l IH]; intros parsed; cbn [mapM].
  - split.
    + intros [= <-]. constructor.
    + intros H. by apply Forall2_nil_inv_l in H as ->.
  - destruct (parse_activity a units) as [r|e] eqn:Ea; cbn [mbind res_bind].
    + destruct (mapM (fun a0 => parse_activity a0 units) l) as [rs|e] eqn:El;
        cbn [mbind res_bind mret res_ret].
      * split.
        -- intros [= <-]. constructor; [done|]. by apply IH.
        -- intros H. apply Forall2_cons_inv_l in H as (r' & rs' & Hr & Hrs & ->).
           apply IH in Hrs as [= <-]. rewrite Ea in Hr. by injection Hr as <-.
      * split; [discriminate|].
        intros H. apply Forall2_cons_inv_l in H as (r' & rs' & _ & Hrs & ->).
        by apply IH in Hrs.
    + split; [discriminate|].
      intros H. apply Forall2_cons_inv_l in H as (r' & rs' & Hr & _ & ->). congruence.
Qed.

Lemma fetch_activities_typed fuel get token after (t : string) l sent :
  t <> EmptyString ->
  fetch_activities fuel get token after (Some t) = Some (Ok l, sent) ->
  forall a, a ∈ l -> ra_type a = Some t.
Proof.
  intros Hne. unfold fetch_activities.
  destruct (fetch_pages _ _ _ _) as [[[all|e] sent']|]; try discriminate.
  intros [= <- _] a. destruct t as [|c t]; [done|].
  unfold filter_type. rewrite list_elem_of_In, filter_In. unfold has_type.
  intros [_ H]. destruct (ra_type a) as [ty|]; [|discriminate].
  by apply String.eqb_eq in H as ->.
Qed.

(** X24. [main] exits with status 1 before it touches the network or the
    sheet when config.json is missing and, without [--auth], when the
    refresh token is empty or the service account file does not exist. *)
Theorem main_preflight (fuel : nat) (args : arguments) (env : environment) :
  (env_config env = None ->
     main fuel args env = Some (mk_result (Exited 1) [] [] None))
  /\ (forall cfg,
        env_config env = Some cfg -> arg_auth args = false ->
        refresh_token (strava cfg) = EmptyString
        \/ env_exists env (service_account_json cfg) = false ->
        main fuel args env = Some (mk_result (Exited 1) [] [] None)).
Proof.
  unfold main. split.
  - by intros ->.
  - intros cfg -> -> [H|H].
    + by rewrite H.
    + rewrite H. by destruct (is_empty _).
Qed.

(** X25. With [--dry-run] or with [--auth] the sheet is never reached,
    whatever the network answers; with [--auth] no activity is requested
    either. *)
Theorem main_without_write (fuel : nat) (args : arguments) (env : environment)
    (r : main_result) :
  main fuel args env = Some r ->
  (arg_dry_run args = true \/ arg_auth args = true -> res_sheet r = None)
  /\ (arg_auth args = true -> res_requests r = []).
Proof.
  unfold main. intros H.
  destruct (env_config env) as [cfg|]; [|by injection H as <-].
  destruct (arg_auth args).
  { by injection H as <-. }
  destruct (is_empty _); [by injection H as <-; split; [|discriminate]|].
  destruct (negb _); [by injection H as <-; split; [|discriminate]|].
  destruct (fst (fst (ensure_strava_token _ _ _))) as [tok|e];
    [|by injection H as <-; split; [|discriminate]].
  destruct (fetch_activities _ _ _ _ _) as [[[acts|e] sent]|]; [| |discriminate].
  - destruct acts as [|a acts]; [by injection H as <-; split; [|discriminate]|].
    destruct (parse_all _ _) as [parsed|e];
      [|by injection H as <-; split; [|discriminate]].
    destruct (arg_dry_run args).
    + by injection H as <-; split; [|discriminate].
    + injection H as <-. split; [|discriminate]. by intros [|].
  - by injection H as <-; split; [|discriminate].
Qed.

Lemma ensure_strava_token_frame post now cfg :
  units (snd (fst (ensure_strava_token post now cfg))) = units cfg
  /\ mapping (snd (fst (ensure_strava_token post now cfg))) = mapping cfg.
Proof.
  unfold ensure_strava_token. destruct (Qltb _ _); [done|].
  by destruct (raise_for_status _).
Qed.

(** X26. The sheet is written only after everything before it went
    through: when [main] reaches [update_sheet], the token was obtained,
    the retrieval returned at least one activity, every activity is a
    "Run" and was parsed, with the units of the config or "miles", and the
    run is [update_sheet] on the parsed records sorted by date. One
    activity that cannot be parsed keeps every record from being
    written. *)
Theorem main_writes_after_success (fuel : nat) (args : arguments) (env : environment)
    (r : main_result) (run : sheet_run) :
  main fuel args env = Some r ->
  res_sheet r = Some run ->
  res_outcome r = Returned tt
  /\ arg_auth args = false /\ arg_dry_run args = false
  /\ exists cfg tok activities parsed,
       env_config env = Some cfg
       /\ fst (fst (ensure_strava_token (env_post env) (env_time env) cfg)) = Ok tok
       /\ res_events r = snd (ensure_strava_token (env_post env) (env_time env) cfg)
       /\ fetch_activities fuel (env_get env) tok
            (env_utcnow env - 86400 * inject_Z (arg_days args))%Q (Some "Run"%string)
          = Some (Ok activities, res_requests r)
       /\ activities <> []
       /\ (forall a, a ∈ activities -> ra_type a = Some "Run"%string)
       /\ Forall2 (fun a rec =>
                     parse_activity a (default "miles"%string (units cfg)) = Ok rec)
            activities parsed
       /\ run = update_sheet (env_display env) (mapping cfg) (sort_by_date parsed)
                  (env_sheet env).
Proof.
  unfold main. intros H Hrun.
  destruct (env_config env) as [cfg|]; [|by injection H as <-].
  destruct (arg_auth args); [by injection H as <-|].
  destruct (is_empty _); [by injection H as <-|].
  destruct (negb _); [by injection H as <-|].
  destruct (ensure_strava_token_frame (env_post env) (env_time env) cfg) as [Hu Hm].
  destruct (fst (fst (ensure_strava_token _ _ _))) as [tok|e] eqn:Etok;
    [|by injection H as <-].
  destruct (fetch_activities _ _ _ _ _) as [[[acts|e] sent]|] eqn:Ef;
    [| by injection H as <- | discriminate].
  destruct acts as [|a acts]; [by injection H as <-|].
  rewrite Hu in H.
  destruct (parse_all _ _) as [parsed|e] eqn:Ep; [|by injection H as <-].
  destruct (arg_dry_run args); [by injection H as <-|].
  injection H as <-. cbn [res_sheet res_outcome res_events res_requests] in *.
  injection Hrun as <-.
  split; [done|]. split; [done|]. split; [done|].
  exists cfg, tok, (a :: acts), parsed. repeat split; try done.
  - by apply (fetch_activities_typed _ _ _ _ "Run" _ _ ltac:(discriminate) Ef).
  - by apply parse_all_Ok.
  - unfold main_write. by rewrite Hm.
Qed.

Lemma main_without_write_witness :
  exists r,
    main 5 (mk_args false 1 true) sample_environment = Some r
    /\ res_sheet r = None.
Proof.
  destruct (main 5 (mk_args false 1 true) sample_environment) as [r|] eqn:E;
    [|vm_compute in E; discriminate E].
  exists r. split; [reflexivity|].
  apply (main_without_write 5 (mk_args false 1 true) sample_environment r E).
  by left.
Defined.

Lemma main_writes_after_success_witness :
  exists run,
    option_map res_sheet (main 5 (mk_args false 1 false) sample_environment)
    = Some (Some run)
    /\ option_map res_outcome (main 5 (mk_args false 1 false) sample_environment)
       = Some (Returned tt).
Proof.
  destruct (main 5 (mk_args false 1 false) sample_environment) as [r|] eqn:E;
    [|vm_compute in E; discriminate E].
  destruct (res_sheet r) as [run|] eqn:Er.
  - exists run. split; [cbn; by rewrite Er|].
    destruct (main_writes_after_success 5 (mk_args false 1 false) sample_environment
                r run E Er) as [Ho _].
    cbn. by rewrite Ho.
  - exfalso. vm_compute in E. injection E as <-. discriminate Er.
Defined.
